(** * Bootstrap and jackknife resampling notebook: model and properties

    The development follows the code cells of the resampling notebook
    (Hubble-constant measurements, supernova distance moduli).  The cells
    are sequences of calls into numpy and pandas; the calls are rendered
    by their array semantics:

    - numbers: the notebook computes on binary64 values.  Every numeric
      definition below is written once, over an interface [Num] of the
      operations the cells use, and is read at two instances:
      [exact] (the real numbers, arithmetic without rounding) and
      [binary64] (the kernel's IEEE 754 floats, which evaluate).
      Statements about shapes, membership and the state hold at every
      instance; identities between formulas are proved at [exact];
      order statements are proved at [exact] and tested at [binary64];
    - random draws: the generator is a position in two sample paths, one
      of raw integers and one of normal deviates, both arbitrary;
    - the kernel namespace is a finite map from names to values, arrays
      and tables live in a heap and names hold references to them;
    - plotting and printing calls read their arguments and are left out
      (the loop around one of them binds its variable [i] and nothing
      else).  Statements the notebook leaves for the student (marked with
      a question mark, an empty right-hand side or a comment alone) are
      left out as well; the statements around them are the ones of the
      notebook. *)

From Stdlib Require Import ZArith Reals Lra Lia Floats.
From stdpp Require Import gmap strings list.

(** ** Arithmetic interface *)

Class Num (F : Type) := {
  of_int : Z -> F;            (* int -> float conversion *)
  fadd : F -> F -> F;
  fsub : F -> F -> F;
  fmul : F -> F -> F;
  fdiv : F -> F -> F;
  fneg : F -> F;
  fpow : F -> F -> F;         (* x ** y *)
  fsqrt : F -> F;             (* np.sqrt *)
  flog10 : F -> F;            (* np.log10 *)
  flt : F -> F -> bool        (* x < y *)
}.

(** Exceptions a cell can end with. *)
Inductive exn :=
| FileNotFoundError
| ParserError
| ValueError
| NameError
| TypeError
| IndexError.

Section Numeric.
Context {F : Type} `{Num F}.

(** A decimal literal [n / 10^k]; both parts are exact in binary64 for
    the literals of the notebook, so the quotient is the literal's
    nearest binary64 value. *)
Definition decimal (n : Z) (k : nat) : F :=
  fdiv (of_int n) (of_int (10 ^ Z.of_nat k)).

(** [a[lo:hi]] for [0 <= lo], [0 <= hi]. *)
Definition slice {A} (lo hi : nat) (a : list A) : list A :=
  drop lo (take hi a).

(** [np.add.reduce] along a row: the first element starts the
    accumulator and the others are added in order.  (numpy adds rows of
    eight elements and more in blocks; in exact arithmetic the order is
    immaterial, and the binary64 statements below are about rows of
    three.) *)
Definition np_sum (a : list F) : F :=
  match a with
  | [] => of_int 0
  | x :: t => foldl fadd x t
  end.

(** [np.mean(a)] *)
Definition np_mean (a : list F) : F :=
  fdiv (np_sum a) (of_int (Z.of_nat (length a))).

Fixpoint insert_sorted (x : F) (a : list F) : list F :=
  match a with
  | [] => [x]
  | y :: t => if flt x y then x :: y :: t else y :: insert_sorted x t
  end.

(** The order [np.partition] leaves the middle elements in. *)
Definition np_sort (a : list F) : list F := foldr insert_sorted [] a.

(** [np.median(a)]: the mean of the middle element, or of the two
    middle elements, of the ordered copy.  (The interface has no NaN;
    numpy's check for one is not part of the model.) *)
Definition np_median (a : list F) : F :=
  let part := np_sort a in
  let sz := length a in
  let index := (sz / 2)%nat in
  if Nat.even sz
  then np_mean (slice (index - 1) (index + 1) part)
  else np_mean (slice index (index + 1) part).

(** [np.var(a)] and [np.std(a)], with the default [ddof=0]. *)
Definition np_var (a : list F) : F :=
  let arrmean := np_mean a in
  np_mean (map (fun x => let d := fsub x arrmean in fmul d d) a).

Definition np_std (a : list F) : F := fsqrt (np_var a).

(** [np.min], [np.max] of a non-empty 1-D array. *)
Definition np_min (a : list F) : F :=
  match a with
  | [] => of_int 0
  | x :: t => foldl (fun m y => if flt y m then y else m) x t
  end.

Definition np_max (a : list F) : F :=
  match a with
  | [] => of_int 0
  | x :: t => foldl (fun m y => if flt m y then y else m) x t
  end.

(** *** Random draws *)

Variable raw : nat -> nat.       (* the generator's integer outputs *)
Variable gauss : nat -> F.       (* its standard normal deviates *)

(** The [k]-th row of an [(N, n)] draw that starts at position [pos]. *)
Definition draw_row {A} (f : nat -> A) (pos n k : nat) : list A :=
  map (fun j => f (pos + k * n + j)%nat) (seq 0 n).

(** [np.random.randint(low, high, (N, n))]: each output is reduced into
    [low .. high-1], row by row; an empty request returns before the
    bounds are checked.  (numpy reduces by masking and rejection, here it
    is a remainder: every array of entries in range is the result for
    some sample path [raw], and nothing below depends on which.) *)
Definition randint (pos : nat) (low high N n : nat)
  : exn + list (list nat) :=
  if decide ((N * n)%nat = 0%nat) then inr (replicate N [])
  else if decide (high <= low)%nat then inl ValueError
  else inr (map (draw_row (fun p => (low + raw p mod (high - low))%nat) pos n)
                (seq 0 N)).

(** [np.random.randn(N, n)] *)
Definition randn (pos : nat) (N n : nat) : list (list F) :=
  map (draw_row gauss pos n) (seq 0 N).

(** [a[idx]] with a 2-D integer array [idx]: the array of the selected
    elements, IndexError when an index is out of range. *)
Definition getitems {A} (a : list A) (idx : list (list nat))
  : exn + list (list A) :=
  match mapM (mapM (fun j => a !! j)) idx with
  | Some r => inr r
  | None => inl IndexError
  end.

(** [np.random.choice(a, size=(N, n), replace=True)]: draws indices
    with [randint(0, len(a), size)] and returns [a[idx]]. *)
Definition np_random_choice (pos : nat) (a : list F) (N n : nat)
  : exn + list (list F) :=
  let pop_size := length a in
  if decide (pop_size = 0%nat /\ (N * n)%nat <> 0%nat) then inl ValueError
  else
    match randint pos 0 pop_size N n with
    | inl e => inl e
    | inr idx => getitems a idx
    end.

(** *** Intercept to Hubble constant *)

(** [def int_to_H0(b): return(10**(-0.2*b) * 10**5)] *)
Definition int_to_H0 (b : F) : F :=
  fmul (fpow (of_int 10) (fmul (fneg (decimal 2 1)) b)) (of_int (10 ^ 5)).

(** [h0_best_err = (int_to_H0(intercept_best-intercept_err_best)
                    -int_to_H0(intercept_best+intercept_err_best))/2] *)
Definition h0_best_err (intercept_best intercept_err_best : F) : F :=
  fdiv (fsub (int_to_H0 (fsub intercept_best intercept_err_best))
             (int_to_H0 (fadd intercept_best intercept_err_best)))
       (of_int 2).

(** *** Jackknife *)

(** [np.concatenate((col[:i], col[i+1:]))] *)
Definition leave_one_out {A} (col : list A) (i : nat) : list A :=
  take i col ++ drop (i + 1) col.

(** [np.std(h0_jack)*np.sqrt(ndata-1)] *)
Definition jackknife_sigma (h0_jack : list F) (ndata : Z) : F :=
  fmul (np_std h0_jack) (fsqrt (of_int (ndata - 1))).

End Numeric.

(** ** The two instances *)

Definition Rltb (x y : R) : bool := if Rlt_dec x y then true else false.

(** Exact arithmetic.  [Rpower x y] is [exp (y * ln x)], the power
    function for a positive base; the notebook's only base is 10. *)
#[export] Instance exact : Num R := {|
  of_int := IZR;
  fadd := Rplus;
  fsub := Rminus;
  fmul := Rmult;
  fdiv := Rdiv;
  fneg := Ropp;
  fpow := Rpower;
  fsqrt := R_sqrt.sqrt;
  flog10 := fun x => (ln x / ln 10)%R;
  flt := Rltb
|}.

(** The nearest binary64 value of an integer. *)
Definition float_of_int (z : Z) : float :=
  SF2Prim (binary_normalize prec emax z 0 false).

(** binary64 arithmetic.  Addition, subtraction, multiplication, division
    and square root are the correctly rounded IEEE 754 operations; the
    power and the logarithm come from the C library and are parameters. *)
Definition binary64 (libm_pow : float -> float -> float)
    (libm_log10 : float -> float) : Num float := {|
  of_int := float_of_int;
  fadd := PrimFloat.add;
  fsub := PrimFloat.sub;
  fmul := PrimFloat.mul;
  fdiv := PrimFloat.div;
  fneg := PrimFloat.opp;
  fpow := libm_pow;
  fsqrt := PrimFloat.sqrt;
  flog10 := libm_log10;
  flt := PrimFloat.ltb
|}.


(** ** The kernel's state

    Names hold scalars, functions or references; tables and arrays live in
    the heap.  A new object takes the next free location and locations
    are never reused, so a reference stays valid for the whole session. *)

(** Heap locations are positions in the heap. *)
Abbreviation loc := nat (only parsing).

Section Session.
Context {F : Type} `{Num F}.

(** A row of [hubble_trim.dat], columns
    [names=['h0','ep','em','date','method','source']]. *)
Record hubble_row := HubbleRow {
  h0 : F; ep : F; em : F; date : F; method : string; source : string
}.

(** A row of [sndata.txt]: the columns the notebook reads. *)
Record sn_row := SNRow { cz : F; mu : F; sigma_mu : F }.

Inductive sn_col := Col_cz | Col_mu | Col_sigma_mu.

Definition sn_column (c : sn_col) (rows : list sn_row) : list F :=
  match c with
  | Col_cz => map cz rows
  | Col_mu => map mu rows
  | Col_sigma_mu => map sigma_mu rows
  end.

Inductive val :=
| VInt (z : Z)
| VNum (x : F)
| VStr (s : string)
| VFun (f : F -> F)
| VRef (l : loc).

Inductive obj :=
| HubbleFrame (rows : list hubble_row)
| SNFrame (rows : list sn_row)
| ColumnOf (frame : loc) (c : sn_col)   (* data['mu']: a Series on the frame's storage *)
| Array1 (a : list F)
| Array2 (a : list (list F))
| IndexArray (a : list (list nat)).

Record state := State {
  env : gmap string val;
  heap : list obj;
  rng_pos : nat
}.

(** State and exceptions: an exception ends the cell and keeps the state
    reached so far. *)
Definition M (A : Type) : Type := state -> (exn + A) * state.

#[export] Instance M_ret : MRet M := fun A a s => (inr a, s).

#[export] Instance M_bind : MBind M := fun A B k m s =>
  match m s with
  | (inr a, s') => k a s'
  | (inl e, s') => (inl e, s')
  end.

Definition raise {A} (e : exn) : M A := fun s => (inl e, s).

Definition lift {A} (r : exn + A) : M A := fun s => (r, s).

(** *** Names *)

Definition lookup_name (x : string) : M val := fun s =>
  match env s !! x with
  | Some v => (inr v, s)
  | None => (inl NameError, s)
  end.

Definition assign (x : string) (v : val) : M unit := fun s =>
  (inr (), State (<[x := v]> (env s)) (heap s) (rng_pos s)).

(** *** Heap *)

Definition new (o : obj) : M loc := fun s =>
  (inr (length (heap s)), State (env s) (heap s ++ [o]) (rng_pos s)).

Definition deref (l : loc) : M obj := fun s =>
  match heap s !! l with
  | Some o => (inr o, s)
  | None => (inl ValueError, s)
  end.

(** In-place update of the object at [l]. *)
Definition poke (l : loc) (o : obj) : M unit := fun s =>
  (inr (), State (env s) (<[l := o]> (heap s)) (rng_pos s)).

(** *** Generator *)

Definition position : M nat := fun s => (inr (rng_pos s), s).

Definition advance (k : nat) : M unit := fun s =>
  (inr (), State (env s) (heap s) (rng_pos s + k)).

(** *** Typed reads of a name *)

Definition get_int (x : string) : M Z :=
  v ← lookup_name x;
  match v with VInt z => mret z | _ => raise TypeError end.

Definition get_num (x : string) : M F :=
  v ← lookup_name x;
  match v with VNum a => mret a | _ => raise TypeError end.

Definition get_str (x : string) : M string :=
  v ← lookup_name x;
  match v with VStr a => mret a | _ => raise TypeError end.

Definition get_fun (x : string) : M (F -> F) :=
  v ← lookup_name x;
  match v with VFun f => mret f | _ => raise TypeError end.

Definition get_ref (x : string) : M loc :=
  v ← lookup_name x;
  match v with VRef l => mret l | _ => raise TypeError end.

Definition get_hubble (x : string) : M (list hubble_row) :=
  l ← get_ref x;
  o ← deref l;
  match o with HubbleFrame rows => mret rows | _ => raise TypeError end.

Definition get_sn (x : string) : M (loc * list sn_row) :=
  l ← get_ref x;
  o ← deref l;
  match o with SNFrame rows => mret (l, rows) | _ => raise TypeError end.

(** The values of a 1-D array or Series; a column of a frame is read
    through the frame. *)
Definition get_array1 (x : string) : M (list F) :=
  l ← get_ref x;
  o ← deref l;
  match o with
  | Array1 a => mret a
  | ColumnOf fl c =>
      o' ← deref fl;
      match o' with
      | SNFrame rows => mret (sn_column c rows)
      | _ => raise TypeError
      end
  | _ => raise TypeError
  end.

Definition get_array2 (x : string) : M (list (list F)) :=
  l ← get_ref x;
  o ← deref l;
  match o with Array2 a => mret a | _ => raise TypeError end.

(** [x[i]] and [x[i, j]] *)
Definition getitem1 (x : string) (i : nat) : M F :=
  a ← get_array1 x;
  match a !! i with Some v => mret v | None => raise IndexError end.

Definition getitem2 (x : string) (i j : nat) : M F :=
  a ← get_array2 x;
  match a !! i ≫= (.!! j) with Some v => mret v | None => raise IndexError end.

(** [x[i] = row] on a 2-D array: in place; the row must have the array's
    row length. *)
Definition setitem_row (x : string) (i : nat) (row : list F) : M unit :=
  l ← get_ref x;
  o ← deref l;
  match o with
  | Array2 a =>
      match a !! i with
      | None => raise IndexError
      | Some old =>
          if decide (length row = length old)
          then poke l (Array2 (<[i := row]> a))
          else raise ValueError
      end
  | _ => raise TypeError
  end.

(** [x[i] = v] on a 1-D array: in place. *)
Definition setitem (x : string) (i : nat) (v : F) : M unit :=
  l ← get_ref x;
  o ← deref l;
  match o with
  | Array1 a =>
      if decide (i < length a)%nat
      then poke l (Array1 (<[i := v]> a))
      else raise IndexError
  | _ => raise TypeError
  end.

(** [for i in range(0, n): body]: each iteration binds the loop variable
    and runs the body; the variable stays bound after the loop. *)
Definition for_range (i : string) (n : Z) (body : nat -> M unit) : M unit :=
  foldr (fun k rest => assign i (VInt (Z.of_nat k));; body k;; rest)
        (mret ()) (seq 0 (Z.to_nat n)).

(** *** numpy calls that allocate or draw *)

(** [np.zeros(n)], [np.zeros((r, c))]: a negative dimension is refused. *)
Definition np_zeros (n : Z) : M (list F) :=
  if decide (n < 0)%Z then raise ValueError
  else mret (replicate (Z.to_nat n) (of_int 0)).

Definition np_zeros2 (r c : Z) : M (list (list F)) :=
  if decide (r < 0 \/ c < 0)%Z then raise ValueError
  else mret (replicate (Z.to_nat r) (replicate (Z.to_nat c) (of_int 0))).

(** [x + y] on 2-D arrays of one shape.  (numpy also stretches an axis of
    length one to the other operand's; operands of different shapes are
    refused here.) *)
Definition add2 (x y : list (list F)) : exn + list (list F) :=
  if decide (map length x = map length y)
  then inr (zip_with (zip_with fadd) x y)
  else inl ValueError.

(** *** What the session takes from outside *)

Variable raw : nat -> nat.     (* the generator's integer outputs *)
Variable gauss : nat -> F.     (* its standard normal deviates *)

(** [pd.read_fwf] on a path, with the options of the call: the rows of
    the table, or the exception of a missing or malformed file. *)
Variable read_fwf_hubble : string -> exn + list hubble_row.
Variable read_fwf_sn : string -> exn + list sn_row.

(** [np.polyfit(x, y, 1, w=w, cov=True)]: the coefficient array
    (slope first) and the covariance matrix. *)
Variable np_polyfit :
  list F -> list F -> list F -> exn + (list F * list (list F)).

Definition size2 (r c : Z) : M (nat * nat) :=
  if decide (r < 0 \/ c < 0)%Z then raise ValueError
  else mret (Z.to_nat r, Z.to_nat c).

(** The drawing calls: the result is taken at the generator's position,
    which then moves past the draws. *)
Definition random_choice (a : list F) (r c : Z) : M (list (list F)) :=
  '(N, n) ← size2 r c;
  pos ← position;
  res ← lift (np_random_choice raw pos a N n);
  advance (N * n);;
  mret res.

Definition random_randint (low high : Z) (r c : Z) : M (list (list nat)) :=
  '(N, n) ← size2 r c;
  pos ← position;
  res ← lift (randint raw pos (Z.to_nat low) (Z.to_nat high) N n);
  advance (N * n);;
  mret res.

Definition random_randn (r c : Z) : M (list (list F)) :=
  '(N, n) ← size2 r c;
  pos ← position;
  advance (N * n);;
  mret (randn gauss pos N n).

(** *** The cells, in the notebook's order *)

(** [data = pd.read_fwf('hubble_trim.dat', ...)] *)
Definition cell_read_hubble : M unit :=
  rows ← lift (read_fwf_hubble "hubble_trim.dat");
  l ← new (HubbleFrame rows);
  assign "data" (VRef l).

(** [data_modern = data.query('date>2001')] *)
Definition cell_query : M unit :=
  rows ← get_hubble "data";
  l ← new (HubbleFrame (List.filter (fun r => flt (of_int 2001) (date r)) rows));
  assign "data_modern" (VRef l).

(** [hdelta_mean = np.mean(data_modern.h0)] *)
Definition cell_hdelta_mean : M unit :=
  rows ← get_hubble "data_modern";
  assign "hdelta_mean" (VNum (np_mean (map h0 rows))).

(** [ndata=len(data_modern.h0)]
    [nbootstraps=int(1e4)]
    [hboot=np.random.choice(data_modern.h0, size=(nbootstraps,ndata), replace=True)] *)
Definition cell_bootstrap : M unit :=
  rows ← get_hubble "data_modern";
  assign "ndata" (VInt (Z.of_nat (length (map h0 rows))));;
  assign "nbootstraps" (VInt 10000);;
  rows ← get_hubble "data_modern";
  nbootstraps ← get_int "nbootstraps";
  ndata ← get_int "ndata";
  hboot ← random_choice (map h0 rows) nbootstraps ndata;
  l ← new (Array2 hboot);
  assign "hboot" (VRef l).

(** [h0_mean = np.mean(hboot, axis=1)] *)
Definition cell_h0_mean : M unit :=
  hboot ← get_array2 "hboot";
  l ← new (Array1 (map np_mean hboot));
  assign "h0_mean" (VRef l).

(** [sboot = hboot + np.random.randn(nbootstraps,ndata)]
    [h0_median_smoothed = np.median(sboot, axis=1)] *)
Definition cell_smooth : M unit :=
  hboot ← get_array2 "hboot";
  nbootstraps ← get_int "nbootstraps";
  ndata ← get_int "ndata";
  noise ← random_randn nbootstraps ndata;
  sum ← lift (add2 hboot noise);
  l ← new (Array2 sum);
  assign "sboot" (VRef l);;
  sboot ← get_array2 "sboot";
  l' ← new (Array1 (map np_median sboot));
  assign "h0_median_smoothed" (VRef l').

(** The supernova cell, in three parts: the load, the columns, and the
    weighted fit with [int_to_H0] and the symmetric error. *)
Definition sn_load : M unit :=
  (* path = '' *)
  assign "path" (VStr "");;
  (* data=pd.read_fwf(path+'sndata.txt') *)
  path ← get_str "path";
  rows ← lift (read_fwf_sn (path +:+ "sndata.txt"));
  l ← new (SNFrame rows);
  assign "data" (VRef l).

Definition sn_columns : M unit :=
  (* cz=data['cz'] *)
  '(fl, _) ← get_sn "data";
  l ← new (ColumnOf fl Col_cz);
  assign "cz" (VRef l);;
  (* logv = np.log10(data['cz']) *)
  '(_, rows) ← get_sn "data";
  l ← new (Array1 (map flog10 (sn_column Col_cz rows)));
  assign "logv" (VRef l);;
  (* mu=data['mu'] *)
  '(fl, _) ← get_sn "data";
  l ← new (ColumnOf fl Col_mu);
  assign "mu" (VRef l);;
  (* sigma_mu=data['sigma_mu'] *)
  '(fl, _) ← get_sn "data";
  l ← new (ColumnOf fl Col_sigma_mu);
  assign "sigma_mu" (VRef l);;
  (* weight = 1/sigma_mu**2; the square is a product *)
  s ← get_array1 "sigma_mu";
  l ← new (Array1 (map (fun x => fdiv (of_int 1) (fmul x x)) s));
  assign "weight" (VRef l).

Definition sn_fit : M unit :=
  (* coeffs, covar = np.polyfit(logv,mu,1,w=weight,cov=True) *)
  x ← get_array1 "logv";
  y ← get_array1 "mu";
  w ← get_array1 "weight";
  '(coeffs, covar) ← lift (np_polyfit x y w);
  l ← new (Array1 coeffs);
  assign "coeffs" (VRef l);;
  l ← new (Array2 covar);
  assign "covar" (VRef l);;
  (* slope_best = coeffs[0]; intercept_best = coeffs[1] *)
  c0 ← getitem1 "coeffs" 0;
  assign "slope_best" (VNum c0);;
  c1 ← getitem1 "coeffs" 1;
  assign "intercept_best" (VNum c1);;
  (* intercept_err_best = np.sqrt(covar[1,1]) *)
  v ← getitem2 "covar" 1 1;
  assign "intercept_err_best" (VNum (fsqrt v));;
  (* def int_to_H0(b): return(10**(-0.2*b) * 10**5) *)
  assign "int_to_H0" (VFun int_to_H0);;
  (* h0_best = int_to_H0(intercept_best) *)
  f ← get_fun "int_to_H0";
  b ← get_num "intercept_best";
  assign "h0_best" (VNum (f b));;
  (* h0_best_err = (int_to_H0(intercept_best-intercept_err_best)
                    -int_to_H0(intercept_best+intercept_err_best))/2 *)
  f ← get_fun "int_to_H0";
  b ← get_num "intercept_best";
  e ← get_num "intercept_err_best";
  f' ← get_fun "int_to_H0";
  b' ← get_num "intercept_best";
  e' ← get_num "intercept_err_best";
  assign "h0_best_err"
    (VNum (fdiv (fsub (f (fsub b e)) (f' (fadd b' e'))) (of_int 2))).

Definition cell_read_sn : M unit := sn_load;; sn_columns;; sn_fit.

(** The bootstrap cell of the fit, up to the loop the student writes:
    [nsims = int(1e4)], [ndata = len(mu)],
    [rand_indices = np.random.randint(0, ndata, (nsims, ndata))] and the
    three result arrays. *)
Definition cell_rand_indices : M unit :=
  assign "nsims" (VInt 10000);;
  m ← get_array1 "mu";
  assign "ndata" (VInt (Z.of_nat (length m)));;
  ndata ← get_int "ndata";
  nsims ← get_int "nsims";
  idx ← random_randint 0 ndata nsims ndata;
  l ← new (IndexArray idx);
  assign "rand_indices" (VRef l);;
  nsims ← get_int "nsims";
  z ← np_zeros nsims;
  l ← new (Array1 z);
  assign "h0_boot" (VRef l);;
  z ← np_zeros nsims;
  l ← new (Array1 z);
  assign "intercept_arr" (VRef l);;
  z ← np_zeros nsims;
  l ← new (Array1 z);
  assign "slope_arr" (VRef l).

(** [x[i] = np.concatenate((col[:i], col[i+1:]))] *)
Definition store_leave_one_out (x col : string) (i : nat) : M unit :=
  c ← get_array1 col;
  setitem_row x i (leave_one_out c i).

(** [x[i]]: a row of a 2-D array. *)
Definition getrow (x : string) (i : nat) : M (list F) :=
  a ← get_array2 x;
  match a !! i with Some r => mret r | None => raise IndexError end.

(** The jackknife cell, in three parts: the leave-one-out subsets, the
    loop that fills [h0_jack], and the spread of the estimates.  The
    second loop is the one of the notebook: its body is the single
    statement [h0_jack[i] = int_to_H0(intercept)], which reads the names
    [int_to_H0] and [intercept]; the fit that the comment above it asks
    for is not there. *)
Definition jackknife_subsets : M unit :=
  (* ndata = len(mu) *)
  m ← get_array1 "mu";
  assign "ndata" (VInt (Z.of_nat (length m)));;
  (* logv_jack = np.zeros((ndata, ndata-1)), and mu_jack, weight_jack *)
  ndata ← get_int "ndata";
  z ← np_zeros2 ndata (ndata - 1);
  l ← new (Array2 z);
  assign "logv_jack" (VRef l);;
  ndata ← get_int "ndata";
  z ← np_zeros2 ndata (ndata - 1);
  l ← new (Array2 z);
  assign "mu_jack" (VRef l);;
  ndata ← get_int "ndata";
  z ← np_zeros2 ndata (ndata - 1);
  l ← new (Array2 z);
  assign "weight_jack" (VRef l);;
  (* h0_jack = np.zeros(ndata-1) *)
  ndata ← get_int "ndata";
  z ← np_zeros (ndata - 1);
  l ← new (Array1 z);
  assign "h0_jack" (VRef l);;
  (* for i in range(0,ndata): the three leave-one-out rows *)
  ndata ← get_int "ndata";
  for_range "i" ndata (fun i =>
    store_leave_one_out "logv_jack" "logv" i;;
    store_leave_one_out "mu_jack" "mu" i;;
    store_leave_one_out "weight_jack" "weight" i).

Definition jackknife_estimates : M unit :=
  (* h0_jack = np.zeros(ndata) *)
  ndata ← get_int "ndata";
  z ← np_zeros ndata;
  l ← new (Array1 z);
  assign "h0_jack" (VRef l);;
  (* for i in range(0,ndata): h0_jack[i] = int_to_H0(intercept) *)
  ndata ← get_int "ndata";
  for_range "i" ndata (fun i =>
    f ← get_fun "int_to_H0";
    b ← get_num "intercept";
    setitem "h0_jack" i (f b)).

(** [h0_sigma_jack = np.std(h0_jack)*np.sqrt(ndata-1)] *)
Definition jackknife_spread : M unit :=
  h ← get_array1 "h0_jack";
  ndata ← get_int "ndata";
  assign "h0_sigma_jack" (VNum (jackknife_sigma h ndata)).

Definition cell_jackknife : M unit :=
  jackknife_subsets;; jackknife_estimates;; jackknife_spread.

(** *** Sessions *)

Inductive cell :=
| ReadHubble | Query | HdeltaMean | Bootstrap | H0Mean | Smooth
| ReadSN | RandIndices | Jackknife.

Definition run_cell (c : cell) : M unit :=
  match c with
  | ReadHubble => cell_read_hubble
  | Query => cell_query
  | HdeltaMean => cell_hdelta_mean
  | Bootstrap => cell_bootstrap
  | H0Mean => cell_h0_mean
  | Smooth => cell_smooth
  | ReadSN => cell_read_sn
  | RandIndices => cell_rand_indices
  | Jackknife => cell_jackknife
  end.

(** The state after running cells one after the other; a cell that ends
    with an exception leaves the state it reached, and the next cell runs
    from there. *)
Definition run_session (cs : list cell) (s : state) : state :=
  foldl (fun s c => (run_cell c s).2) s cs.

(** *** Vocabulary of the properties *)

(** [m] returns from [s], and its result and final state satisfy [Q]. *)
Definition wp {A} (m : M A) (s : state) (Q : A -> state -> Prop) : Prop :=
  exists a s', m s = (inr a, s') /\ Q a s'.

(** The name [x] reads as the 1-D array [a] in [s]. *)
Definition reads_array1 (s : state) (x : string) (a : list F) : Prop :=
  get_array1 x s = (inr a, s).

(** The loaded measurement tables. *)
Definition is_table (o : obj) : Prop :=
  match o with
  | HubbleFrame _ | SNFrame _ => True
  | _ => False
  end.

(** [m] leaves every table of the heap as it is, whether it returns or
    raises. *)
Definition keeps_tables {A} (m : M A) : Prop :=
  forall s l o, heap s !! l = Some o -> is_table o -> heap (m s).2 !! l = Some o.

(** The arrays of the jackknife loops after [i] iterations, for [n]
    rows in all: the entries written so far, then the zeros the array was
    created with. *)
Definition jack_rows (col : list F) (n i : nat) : list (list F) :=
  map (leave_one_out col) (seq 0 i)
  ++ replicate (n - i) (replicate (n - 1) (of_int 0)).

Definition est_rows (g : nat -> F) (n i : nat) : list F :=
  map g (seq 0 i) ++ replicate (n - i) (of_int 0).

(** The namespace after [i] iterations of a loop on the variable [x]
    that binds nothing else. *)
Definition loop_env (e : gmap string val) (x : string) (i : nat)
  : gmap string val :=
  match i with
  | O => e
  | S j => <[x := VInt (Z.of_nat j)]> e
  end.

End Session.

(** ** Files *)

(** The disk: the lines of the file at a path, when there is one. *)
Definition disk : Type := string -> option (list string).

Definition open_file (d : disk) (path : string) : exn + list string :=
  match d path with
  | Some lines => inr lines
  | None => inl FileNotFoundError
  end.

(** [pd.read_fwf(path, widths=[...], names=[...], comment='#', skiprows=1)]:
    with the widths and the names given, a file that exists is cut at
    the widths line by line and the call returns a table, whatever the
    text is; [parse] is that cutting.  A missing file raises
    [FileNotFoundError]. *)
Definition read_fwf_widths {T} (d : disk) (parse : list string -> T)
    (path : string) : exn + T :=
  match open_file d path with
  | inl e => inl e
  | inr lines => inr (parse lines)
  end.

(** [pd.read_fwf(path)]: the columns are inferred from the text, which
    can fail (on an empty file, for one); [parse] is the inference and
    the cutting.  A missing file raises [FileNotFoundError]. *)
Definition read_fwf_infer {T} (d : disk) (parse : list string -> exn + T)
    (path : string) : exn + T :=
  match open_file d path with
  | inl e => inl e
  | inr lines => parse lines
  end.

(** ** Inputs used as examples *)

(** A small table of measurements, in exact arithmetic. *)
Definition example_hubble : list (hubble_row (F:=R)) :=
  [ HubbleRow 72%R 3%R 3%R 2005%R "S" "a";
    HubbleRow 68%R 2%R 2%R 2010%R "C" "b" ].

(** Three supernovae, and a kernel in which the three columns of the fit
    are bound. *)
Definition example_sn : list (sn_row (F:=R)) :=
  [SNRow 3000%R 33%R 0.2%R; SNRow 6000%R 34.5%R 0.2%R; SNRow 9000%R 35.4%R 0.3%R].

Definition jack_env : gmap string (val (F:=R)) :=
  <["logv" := VRef 0]> (<["mu" := VRef 1]> (<["weight" := VRef 2]>
    (<["int_to_H0" := VFun int_to_H0]> ∅))).

Definition jack_heap : list (obj (F:=R)) :=
  [Array1 [3%R; 4%R; 5%R]; Array1 [33%R; 34%R; 35%R]; Array1 [25%R; 25%R; 11%R]].

Definition smooth_env : gmap string (val (F:=R)) :=
  <["hboot" := VRef 0]> (<["nbootstraps" := VInt 2]> (<["ndata" := VInt 2]> ∅)).

(** A fit that always returns slope 1 and intercept 16, and a disk with
    no file. *)
Definition always_fit (x y w : list R) : exn + (list R * list (list R)) :=
  inr ([1%R; 16%R], []).

Definition no_file {A} (path : string) : exn + A := inl FileNotFoundError.

(** Three measurements of 0.1, dated after 2001, in binary64. *)
Definition tenths : list (hubble_row (F:=float)) :=
  replicate 3 (HubbleRow 0x1.999999999999ap-4%float 0%float 0%float
                         2005%float "S" "a").

(** A kernel in which three estimates and [ndata] are bound. *)
Definition estimates_env : gmap string (val (F:=R)) :=
  <["h0_jack" := VRef 0]> (<["ndata" := VInt 3]> ∅).

Definition estimates_heap : list (obj (F:=R)) := [Array1 [70%R; 71%R; 69%R]].

(** A disk with no file at all. *)
Definition empty_disk : disk := fun _ => None.

(** A kernel in which a resample array of two columns and a column [mu]
    of three rows are bound. *)
Definition resample_env : gmap string (val (F:=R)) :=
  <["hboot" := VRef 0]> (<["nbootstraps" := VInt 10000]> (<["mu" := VRef 1]> ∅)).

Definition resample_heap : list (obj (F:=R)) :=
  [Array2 (replicate (Z.to_nat 10000) [70%R; 72%R]); Array1 [33%R; 34%R; 35%R]].

(** A fit that returns slope 1, intercept 16 and the variance 4 of the
    intercept, and a fit that raises. *)
Definition fit_with_errors (x y w : list R) : exn + (list R * list (list R)) :=
  inr ([1%R; 16%R], [[1%R; 0%R]; [0%R; 4%R]]).

Definition failing_fit (x y w : list R) : exn + (list R * list (list R)) :=
  inl ValueError.

(** ** Runs of several cells, and what a computation may touch *)

Section Notebook.
Context {F : Type} `{Num F}.
Variable raw : nat -> nat.
Variable gauss : nat -> F.
Variable read_fwf_hubble : string -> exn + list (hubble_row (F:=F)).
Variable read_fwf_sn : string -> exn + list (sn_row (F:=F)).
Variable np_polyfit :
  list F -> list F -> list F -> exn + (list F * list (list F)).

(** The cells of [cs] run one after the other, up to the first one that
    ends with an exception. *)
Definition run_all (cs : list cell) : M (F:=F) unit :=
  foldr (fun c rest =>
           run_cell raw gauss read_fwf_hubble read_fwf_sn np_polyfit c;; rest)
        (mret ()) cs.

(** The names on the left of the assignments of a cell, the loop variable
    included. *)
Definition assigned (c : cell) : list string :=
  match c with
  | ReadHubble => ["data"]
  | Query => ["data_modern"]
  | HdeltaMean => ["hdelta_mean"]
  | Bootstrap => ["ndata"; "nbootstraps"; "hboot"]
  | H0Mean => ["h0_mean"]
  | Smooth => ["sboot"; "h0_median_smoothed"]
  | ReadSN => ["path"; "data"; "cz"; "logv"; "mu"; "sigma_mu"; "weight";
               "coeffs"; "covar"; "slope_best"; "intercept_best";
               "intercept_err_best"; "int_to_H0"; "h0_best"; "h0_best_err"]
  | RandIndices => ["nsims"; "ndata"; "rand_indices"; "h0_boot";
                    "intercept_arr"; "slope_arr"; "i"]
  | Jackknife => ["ndata"; "logv_jack"; "mu_jack"; "weight_jack"; "h0_jack";
                  "i"; "h0_sigma_jack"]
  end.

(** The name the first statement of a cell reads; the two loads and the
    index cell start with a statement that reads none. *)
Definition first_read (c : cell) : option string :=
  match c with
  | ReadHubble | ReadSN | RandIndices => None
  | Query => Some "data"
  | HdeltaMean | Bootstrap => Some "data_modern"
  | H0Mean | Smooth => Some "hboot"
  | Jackknife => Some "mu"
  end.

(** [m] rebinds no name outside [X], whether it returns or raises. *)
Definition keeps_names (X : list string) {A} (m : M (F:=F) A) : Prop :=
  forall s x, x ∉ X -> env (m s).2 !! x = env s !! x.

(** The references held by the names of [X] point at or after position
    [b] of the heap. *)
Definition owned (b : nat) (X : list string) (s : state (F:=F)) : Prop :=
  forall x l, x ∈ X -> env s !! x = Some (VRef l) -> (b <= l)%nat.

(** From a state that satisfies [P] and whose heap has at least [b]
    objects, [m] leaves the first [b] objects as they are, whether it
    returns or raises; when it returns, the result and the state satisfy
    [Q]. *)
Definition appends_from (b : nat) (P : state (F:=F) -> Prop) {A}
    (m : M (F:=F) A) (Q : A -> state (F:=F) -> Prop) : Prop :=
  forall s, P s -> (b <= length (heap s))%nat ->
    take b (heap (m s).2) = take b (heap s) /\
    (b <= length (heap (m s).2))%nat /\
    forall a, (m s).1 = inr a -> Q a (m s).2.

(** Each run of [m] takes the generator from a position to one related
    to it by [R], whether [m] returns or raises. *)
Definition moves_generator (R : relation nat) {A} (m : M (F:=F) A) : Prop :=
  forall s, R (rng_pos s) (rng_pos (m s).2).

End Notebook.

(** * Properties *)

(** ** Worked values *)

Section WorkedValues.
Variable libm_pow : float -> float -> float.
Variable libm_log10 : float -> float.
Let F64 : Num float := binary64 libm_pow libm_log10.

Example leave_one_out_second : leave_one_out [10; 20; 30; 40]%nat 1 = [10; 30; 40]%nat.
Proof. reflexivity. Qed.

Example decimal_is_nearest : @decimal _ F64 2 1 = 0x1.999999999999ap-3%float.
Proof. reflexivity. Qed.

Example median_odd : @np_median _ F64 [3; 1; 2]%float = 2%float.
Proof. reflexivity. Qed.

Example median_even : @np_median _ F64 [4; 1; 3; 2]%float = 2.5%float.
Proof. reflexivity. Qed.

Example std_of_eight : @np_std _ F64 [2; 4; 4; 4; 5; 5; 7; 9]%float = 2%float.
Proof. reflexivity. Qed.

Example randint_rows :
  randint (fun k => k) 0 0 3 2 3 = inr [[0; 1; 2]; [0; 1; 2]]%nat.
Proof. reflexivity. Qed.

Example choice_rows :
  np_random_choice (fun k => (2 * k)%nat) 0 [10; 20; 30]%Z 2 3
  = inr [[10; 30; 20]; [10; 30; 20]]%Z.
Proof. reflexivity. Qed.

Example randint_empty_population : randint (fun k => k) 0 0 0 2 0 = inr [[]; []].
Proof. reflexivity. Qed.

Example randint_bad_bounds : randint (fun k => k) 0 0 0 2 3 = inl ValueError.
Proof. reflexivity. Qed.

End WorkedValues.

(** ** Resampling: shapes and membership *)

Section ResamplingFacts.
Context {F : Type} `{Num F}.
Variable raw : nat -> nat.

Lemma draw_row_length {A} (f : nat -> A) pos n k :
  length (draw_row f pos n k) = n.
Proof. unfold draw_row. by rewrite length_map, length_seq. Qed.

Lemma draw_row_Forall {A} (P : A -> Prop) (f : nat -> A) pos n k :
  (forall p, P (f p)) -> Forall P (draw_row f pos n k).
Proof. intros Hf. unfold draw_row. apply Forall_fmap, Forall_forall. intros; apply Hf. Qed.

(** [randint] returns an array of the requested shape whose entries lie
    in [low .. high-1], whenever the request is empty or [low < high]. *)
Lemma randint_spec pos low high N n :
  (N * n = 0 \/ low < high)%nat ->
  exists idx,
    randint raw pos low high N n = inr idx /\
    length idx = N /\
    Forall (fun row => length row = n /\
                       Forall (fun j => low <= j < high)%nat row) idx.
Proof.
  intros Hreq. unfold randint.
  destruct (decide ((N * n)%nat = 0%nat)) as [Hz|Hnz].
  - exists (replicate N []). split; [done|]. split; [by rewrite length_replicate|].
    apply Forall_forall. intros row [-> HN]%elem_of_replicate.
    split; [simpl; nia|constructor].
  - destruct Hreq as [?|Hlt]; [done|].
    destruct (decide (high <= low)%nat); [lia|].
    eexists. split; [done|]. split; [by rewrite length_map, length_seq|].
    apply Forall_fmap, Forall_forall. intros k _. simpl. split.
    + apply draw_row_length.
    + apply draw_row_Forall. intros p.
      pose proof (Nat.mod_upper_bound (raw p) (high - low)). lia.
Qed.

(** Indexing with in-range indices returns an array of the indices'
    shape whose elements are elements of the indexed array. *)
Lemma getitems_spec {A} (a : list A) (idx : list (list nat)) :
  Forall (Forall (fun j => j < length a)%nat) idx ->
  exists r,
    getitems a idx = inr r /\
    length r = length idx /\
    Forall2 (fun row irow => length row = length irow /\
                             forall x, x ∈ row -> x ∈ a) r idx.
Proof.
  intros Hidx. unfold getitems.
  assert (is_Some (mapM (mapM (fun j => a !! j)) idx)) as [r Hr].
  { apply mapM_is_Some. eapply Forall_impl; [exact Hidx|]. intros row Hrow. simpl.
    apply mapM_is_Some. eapply Forall_impl; [exact Hrow|]. intros j Hj. simpl.
    by apply lookup_lt_is_Some. }
  exists r. rewrite Hr. split; [done|].
  apply mapM_Some in Hr. split; [symmetry; by eapply Forall2_length|].
  apply Forall2_flip. eapply Forall2_impl; [exact Hr|].
  intros irow row Hrow. simpl in Hrow. apply mapM_Some in Hrow. split.
  - symmetry. by eapply Forall2_length.
  - intros x Hx. apply list_elem_of_lookup in Hx as [k Hk].
    destruct (Forall2_lookup_r _ _ _ _ _ Hrow Hk) as (j & _ & Hj).
    by eapply list_elem_of_lookup_2.
Qed.

(** [np.random.choice(a, size=(N, len(a)))] always returns; the result
    has [N] rows of [len(a)] elements, each an element of [a]. *)
Lemma np_random_choice_spec pos (a : list F) N :
  exists hboot,
    np_random_choice raw pos a N (length a) = inr hboot /\
    length hboot = N /\
    Forall (fun row => length row = length a /\
                       forall x, x ∈ row -> x ∈ a) hboot.
Proof.
  unfold np_random_choice.
  destruct (decide (length a = 0%nat /\ (N * length a)%nat <> 0%nat)) as [[Hz Hnz]|Hok].
  { rewrite Hz in Hnz. lia. }
  destruct (randint_spec pos 0 (length a) N (length a)) as (idx & Hidx & Hlen & Hrows).
  { destruct (length a); [left|right]; lia. }
  rewrite Hidx.
  destruct (getitems_spec a idx) as (r & Hr & Hlr & Hrr).
  { eapply Forall_impl; [exact Hrows|]. intros row [_ Hrow]. simpl.
    eapply Forall_impl; [exact Hrow|]. simpl. lia. }
  exists r. split; [done|]. split; [congruence|].
  apply Forall_forall. intros row Hin.
  apply list_elem_of_lookup in Hin as [k Hk].
  destruct (Forall2_lookup_l _ _ _ _ _ Hrr Hk) as (irow & Hik & Hl & Hmem).
  split; [|done]. rewrite Hl.
  eapply Forall_lookup_1 in Hrows; [|exact Hik]. tauto.
Qed.

(** *** Leave-one-out *)

Lemma leave_one_out_length {A} (col : list A) i :
  (i < length col)%nat -> length (leave_one_out col i) = (length col - 1)%nat.
Proof.
  intros Hi. unfold leave_one_out.
  rewrite length_app, length_take, length_drop. lia.
Qed.

Lemma leave_one_out_take {A} (col : list A) i :
  (i < length col)%nat -> take i (leave_one_out col i) = take i col.
Proof.
  intros Hi. unfold leave_one_out.
  rewrite take_app_le by (rewrite length_take; lia).
  rewrite take_take. f_equal. lia.
Qed.

Lemma leave_one_out_drop {A} (col : list A) i :
  (i < length col)%nat -> drop i (leave_one_out col i) = drop (S i) col.
Proof.
  intros Hi. unfold leave_one_out.
  rewrite drop_app_length' by (rewrite length_take; lia).
  f_equal. lia.
Qed.

Lemma leave_one_out_lookup {A} (col : list A) i j :
  (i < length col)%nat ->
  leave_one_out col i !! j = if decide (j < i)%nat then col !! j else col !! S j.
Proof.
  intros Hi. unfold leave_one_out. destruct (decide (j < i)%nat).
  - rewrite lookup_app_l by (rewrite length_take; lia).
    by rewrite lookup_take_lt.
  - rewrite lookup_app_r by (rewrite length_take; lia).
    rewrite length_take, lookup_drop. f_equal. lia.
Qed.

End ResamplingFacts.

(** ** Sorting keeps the elements *)

Section SortFacts.
Context {F : Type} `{Num F}.

Lemma insert_sorted_perm (x : F) (a : list F) : insert_sorted x a ≡ₚ x :: a.
Proof.
  induction a as [|y t IH]; simpl; [done|].
  destruct (flt x y); [done|]. rewrite IH. apply Permutation_swap.
Qed.

Lemma np_sort_perm (a : list F) : np_sort a ≡ₚ a.
Proof.
  induction a as [|x t IH]; simpl; [done|].
  rewrite insert_sorted_perm. by rewrite IH.
Qed.

Lemma slice_elem_of {A} lo hi (a : list A) x : x ∈ slice lo hi a -> x ∈ a.
Proof.
  unfold slice. intros Hx.
  apply (subseteq_take hi a), (subseteq_drop lo _), Hx.
Qed.

(** The middle slice the median averages is not empty and is made of
    elements of the array. *)
Lemma median_slice (a : list F) :
  a <> [] ->
  exists mid,
    np_median a = np_mean mid /\ mid <> [] /\ forall x, x ∈ mid -> x ∈ a.
Proof.
  intros Ha. unfold np_median.
  assert (0 < length a)%nat as Hlen by (destruct a; [done|simpl; lia]).
  pose proof (Permutation_length (np_sort_perm a)) as Hsl.
  assert (forall lo hi x, x ∈ slice lo hi (np_sort a) -> x ∈ a) as Hmem.
  { intros lo hi x Hx. rewrite <- (np_sort_perm a). by eapply slice_elem_of. }
  assert (forall lo hi, (lo < hi <= length a)%nat -> slice lo hi (np_sort a) <> []) as Hne.
  { intros lo hi Hb Hnil. apply (f_equal length) in Hnil.
    unfold slice in Hnil. rewrite length_drop, length_take in Hnil. simpl in Hnil. lia. }
  pose proof (Nat.div_mod_eq (length a) 2) as Hdiv.
  destruct (Nat.even (length a)) eqn:Hev.
  - eexists. split; [done|]. split; [|by eauto].
    apply Hne. apply Nat.even_spec in Hev as [k Hk].
    rewrite Hk in *. rewrite (Nat.mul_comm 2 k), Nat.div_mul by done. lia.
  - eexists. split; [done|]. split; [|by eauto].
    apply Hne. pose proof (Nat.mod_upper_bound (length a) 2). lia.
Qed.

End SortFacts.

(** ** Exact arithmetic *)

Section ExactFacts.
Local Open Scope R_scope.

Lemma int_to_H0_unfold (b : R) :
  int_to_H0 b = Rpower 10 (- 0.2 * b) * 10 ^ 5.
Proof.
  unfold int_to_H0, decimal. cbn [of_int fmul fpow fneg fdiv exact].
  change (10 ^ Z.of_nat 1)%Z with 10%Z. change (10 ^ 5)%Z with 100000%Z.
  f_equal; [f_equal|]; lra.
Qed.

Lemma Rpower_10_5 : Rpower 10 5 = 10 ^ 5.
Proof.
  replace 5 with (INR 5) at 1 by (simpl; lra).
  apply Rpower_pow. lra.
Qed.

Lemma int_to_H0_decreasing (b1 b2 : R) :
  b1 < b2 -> int_to_H0 b2 < int_to_H0 b1.
Proof.
  intros Hlt. rewrite !int_to_H0_unfold.
  apply Rmult_lt_compat_r.
  - apply pow_lt. lra.
  - apply Rpower_lt; lra.
Qed.

(** *** Sums and means of bounded lists *)

Lemma foldl_Rplus_bounds (lo hi acc : R) (t : list R) :
  (forall x, x ∈ t -> lo <= x <= hi) ->
  acc + INR (length t) * lo <= foldl Rplus acc t <= acc + INR (length t) * hi.
Proof.
  revert acc. induction t as [|y t IH]; intros acc Hb.
  - simpl. lra.
  - assert (lo <= y <= hi) as Hy by (apply Hb; left).
    specialize (IH (acc + y) (fun x Hx => Hb x (list_elem_of_further _ _ _ Hx))).
    change (foldl Rplus acc (y :: t)) with (foldl Rplus (acc + y) t).
    rewrite length_cons, S_INR. lra.
Qed.

Lemma Rdiv_bounds (lo hi s d : R) :
  0 < d -> d * lo <= s <= d * hi -> lo <= s / d <= hi.
Proof.
  intros Hd [Hlo Hhi]. unfold Rdiv.
  split; apply Rmult_le_reg_r with d; try done;
    rewrite ?Rmult_assoc, Rinv_l by lra; lra.
Qed.

Lemma np_mean_bounds (lo hi : R) (a : list R) :
  a <> [] ->
  (forall x, x ∈ a -> lo <= x <= hi) ->
  lo <= np_mean a <= hi.
Proof.
  intros Ha Hb. destruct a as [|x t]; [done|]. clear Ha.
  unfold np_mean, np_sum. simpl fdiv. simpl of_int.
  rewrite <- INR_IZR_INZ.
  assert (0 < INR (length (x :: t))) as Hpos by (apply lt_0_INR; simpl; lia).
  assert (lo <= x <= hi) as Hx by (apply Hb; left).
  pose proof (foldl_Rplus_bounds lo hi x t
                (fun y Hy => Hb y (list_elem_of_further _ _ _ Hy))) as Hs.
  simpl fadd. rewrite length_cons, S_INR in *.
  apply Rdiv_bounds; lra.
Qed.

Lemma np_median_bounds (lo hi : R) (a : list R) :
  a <> [] ->
  (forall x, x ∈ a -> lo <= x <= hi) ->
  lo <= np_median a <= hi.
Proof.
  intros Ha Hb.
  destruct (median_slice a Ha) as (mid & -> & Hne & Hmem).
  apply np_mean_bounds; [done|]. intros x Hx. apply Hb, Hmem, Hx.
Qed.

(** *** Minimum and maximum *)

Lemma Rltb_true (x y : R) : Rltb x y = true <-> x < y.
Proof. unfold Rltb. destruct (Rlt_dec x y); split; (done || lra). Qed.

Lemma foldl_min_le (m : R) (t : list R) :
  foldl (fun m y => if Rltb y m then y else m) m t <= m /\
  forall x, x ∈ t -> foldl (fun m y => if Rltb y m then y else m) m t <= x.
Proof.
  revert m. induction t as [|y t IH]; intros m; simpl.
  - split; [lra|]. intros x Hx. by apply elem_of_nil in Hx.
  - destruct (IH (if Rltb y m then y else m)) as [H1 H2].
    assert ((if Rltb y m then y else m) <= m /\ (if Rltb y m then y else m) <= y) as [? ?].
    { unfold Rltb. destruct (Rlt_dec y m); lra. }
    split; [lra|]. intros x [->|Hx]%elem_of_cons; [lra|by apply H2].
Qed.

Lemma foldl_max_ge (m : R) (t : list R) :
  m <= foldl (fun m y => if Rltb m y then y else m) m t /\
  forall x, x ∈ t -> x <= foldl (fun m y => if Rltb m y then y else m) m t.
Proof.
  revert m. induction t as [|y t IH]; intros m; simpl.
  - split; [lra|]. intros x Hx. by apply elem_of_nil in Hx.
  - destruct (IH (if Rltb m y then y else m)) as [H1 H2].
    assert (m <= (if Rltb m y then y else m) /\ y <= (if Rltb m y then y else m)) as [? ?].
    { unfold Rltb. destruct (Rlt_dec m y); lra. }
    split; [lra|]. intros x [->|Hx]%elem_of_cons; [lra|by apply H2].
Qed.

Lemma np_min_max_bounds (a : list R) x :
  x ∈ a -> np_min a <= x <= np_max a.
Proof.
  destruct a as [|y t]; [by intros ?%elem_of_nil|].
  unfold np_min, np_max. cbn [flt exact].
  destruct (foldl_min_le y t) as [? ?], (foldl_max_ge y t) as [? ?].
  intros [->|Hx]%elem_of_cons; split; auto.
Qed.

(** *** Variance *)

Lemma foldl_Rplus_nonneg (acc : R) (t : list R) :
  0 <= acc -> (forall x, x ∈ t -> 0 <= x) -> 0 <= foldl Rplus acc t.
Proof.
  revert acc. induction t as [|y t IH]; intros acc Ha Hb; simpl; [done|].
  apply IH.
  - assert (0 <= y) by (apply Hb; left). lra.
  - intros x Hx. apply Hb. by right.
Qed.

Lemma np_var_nonneg (a : list R) : 0 <= np_var a.
Proof.
  unfold np_var, np_mean. simpl fdiv. simpl of_int.
  set (sq := map _ a).
  assert (forall x, x ∈ sq -> 0 <= x) as Hsq.
  { intros x (y & -> & _)%list_elem_of_fmap. simpl. apply Rle_0_sqr. }
  assert (0 <= np_sum sq) as Hsum.
  { unfold np_sum. destruct sq as [|x t]; [simpl; lra|].
    apply foldl_Rplus_nonneg.
    - apply Hsq. left.
    - intros y Hy. apply Hsq. by right. }
  rewrite <- INR_IZR_INZ.
  destruct (length sq) as [|k] eqn:Hk.
  - destruct sq; [|done]. unfold np_sum. simpl. unfold Rdiv. lra.
  - apply Rmult_le_pos; [done|].
    apply Rlt_le, Rinv_0_lt_compat, lt_0_INR. lia.
Qed.

Lemma jackknife_sigma_sqr (h0_jack : list R) (ndata : Z) :
  (1 <= ndata)%Z ->
  (jackknife_sigma h0_jack ndata)² = IZR (ndata - 1) * (np_std h0_jack)² /\
  (np_std h0_jack)² = np_var h0_jack.
Proof.
  intros Hn. unfold jackknife_sigma, np_std. cbn [fmul fsqrt of_int exact].
  assert (0 <= IZR (ndata - 1)) by (apply IZR_le; lia).
  pose proof (np_var_nonneg h0_jack).
  rewrite Rsqr_mult, !Rsqr_sqrt by done. split; lra.
Qed.

End ExactFacts.

(** ** binary64 arithmetic *)

Section Binary64Facts.
Variable libm_pow : float -> float -> float.
Variable libm_log10 : float -> float.
Let b64 : Num float := binary64 libm_pow libm_log10.

Lemma float_ltb_irrefl (y : float) : PrimFloat.ltb y y = false.
Proof.
  rewrite ltb_spec. unfold SFltb.
  destruct (Prim2SF y) as [s|s| |s m e]; simpl; try done.
  - by destruct s.
  - rewrite Z.compare_refl, Pos.compare_cont_refl. by destruct s.
Qed.

Lemma float_sub_diag_half_not_pos (y : float) :
  PrimFloat.ltb 0 ((y - y) / 2) = false.
Proof.
  rewrite ltb_spec, div_spec, sub_spec. unfold SF64sub, SFsub.
  destruct (Prim2SF y) as [s|s| |s m e].
  - by destruct s.
  - by destruct s.
  - done.
  - by rewrite Z.sub_diag.
Qed.

(** Two inputs in increasing order that [int_to_H0] sends to one value:
    the product [-0.2*b] is the same binary64 number for both. *)
Lemma int_to_H0_binary64_tie :
  PrimFloat.ltb 0 0x1p-1074 = true /\
  @flt _ b64 (@int_to_H0 _ b64 0x1p-1074%float) (@int_to_H0 _ b64 0%float) = false.
Proof.
  split; [done|].
  unfold int_to_H0, decimal, b64, binary64. cbn [of_int fmul fpow fneg fdiv flt].
  apply float_ltb_irrefl.
Qed.

(** An intercept and a positive error smaller than half the spacing of
    the binary64 numbers at the intercept: both shifted intercepts round
    to the intercept, and the symmetric error is not positive. *)
Lemma h0_best_err_binary64_not_positive :
  PrimFloat.ltb 0 0x1.cd2b297d889bcp-54 = true /\
  @flt _ b64 0%float (@h0_best_err _ b64 16%float 0x1.cd2b297d889bcp-54%float) = false.
Proof.
  split; [done|].
  unfold h0_best_err, int_to_H0, decimal, b64, binary64.
  cbn [of_int fmul fpow fneg fdiv fsub fadd flt].
  apply float_sub_diag_half_not_pos.
Qed.

(** With the observations [0.1, 0.1, 0.1] every resample is
    [0.1, 0.1, 0.1], and its binary64 mean is the next number above 0.1. *)
Lemma mean_binary64_three_tenths :
  @np_mean _ b64 [0x1.999999999999ap-4; 0x1.999999999999ap-4; 0x1.999999999999ap-4]%float
  = 0x1.999999999999bp-4%float.
Proof. reflexivity. Qed.

End Binary64Facts.

(** ** The tables are never written *)

Section TableFacts.
Context {F : Type} `{Num F}.
Implicit Types (s : state (F:=F)) (v : val (F:=F)) (o : obj (F:=F)).

Lemma keeps_ret {A} (a : A) : keeps_tables (F:=F) (mret a).
Proof. by intros s l o Hl Ho. Qed.

Lemma keeps_raise {A} e : keeps_tables (F:=F) (raise (A:=A) e).
Proof. by intros s l o Hl Ho. Qed.

Lemma keeps_lift {A} (r : exn + A) : keeps_tables (F:=F) (lift r).
Proof. by intros s l o Hl Ho. Qed.

Lemma keeps_bind {A B} (m : M (F:=F) A) (k : A -> M (F:=F) B) :
  keeps_tables m -> (forall a, keeps_tables (k a)) -> keeps_tables (m ≫= k).
Proof.
  intros Hm Hk s l o Hl Ho. unfold mbind, M_bind.
  specialize (Hm s l o Hl Ho).
  destruct (m s) as [[e|a] s']; simpl in *; [done|].
  by apply Hk.
Qed.

Lemma keeps_lookup_name x : keeps_tables (F:=F) (lookup_name x).
Proof. intros s l o Hl Ho. unfold lookup_name. by destruct (env s !! x). Qed.

Lemma keeps_assign x v : keeps_tables (assign x v).
Proof. by intros s l o Hl Ho. Qed.

Lemma keeps_new o : keeps_tables (new o).
Proof.
  intros s l o' Hl Ho. simpl. rewrite lookup_app_l; [done|].
  by eapply lookup_lt_Some.
Qed.

Lemma keeps_deref l : keeps_tables (F:=F) (deref l).
Proof. intros s l' o Hl Ho. unfold deref. by destruct (heap s !! l). Qed.

Lemma keeps_position : keeps_tables (F:=F) position.
Proof. by intros s l o Hl Ho. Qed.

Lemma keeps_advance k : keeps_tables (F:=F) (advance k).
Proof. by intros s l o Hl Ho. Qed.

(** An in-place write lands on an array, never on a table. *)
Lemma keeps_setitem_row x i row : keeps_tables (F:=F) (setitem_row x i row).
Proof.
  intros s l o Hl Ho.
  unfold setitem_row, get_ref, mbind, M_bind, lookup_name, deref.
  destruct (env s !! x) as [[]|]; simpl; try done.
  destruct (heap s !! l0) as [[]|] eqn:Hl0; simpl; try done.
  destruct (a !! i); simpl; [|done]. case_decide; simpl; [|done].
  rewrite list_lookup_insert_ne; [done|]. intros Heq. subst.
  rewrite Hl in Hl0. by injection Hl0 as ->.
Qed.

Lemma keeps_setitem x i a : keeps_tables (F:=F) (setitem x i a).
Proof.
  intros s l o Hl Ho.
  unfold setitem, get_ref, mbind, M_bind, lookup_name, deref.
  destruct (env s !! x) as [[]|]; simpl; try done.
  destruct (heap s !! l0) as [[]|] eqn:Hl0; simpl; try done.
  case_decide; simpl; [|done].
  rewrite list_lookup_insert_ne; [done|]. intros Heq. subst.
  rewrite Hl in Hl0. by injection Hl0 as ->.
Qed.

Lemma keeps_for_range x n (body : nat -> M (F:=F) unit) :
  (forall i, keeps_tables (body i)) -> keeps_tables (for_range x n body).
Proof.
  intros Hb. unfold for_range.
  induction (seq 0 (Z.to_nat n)) as [|i t IH]; simpl.
  - apply keeps_ret.
  - apply keeps_bind; [apply keeps_assign|]. intros _.
    apply keeps_bind; [apply Hb|]. intros _. apply IH.
Qed.

End TableFacts.

Create HintDb keeps discriminated.

#[export] Hint Resolve keeps_ret keeps_raise keeps_lift keeps_lookup_name
  keeps_assign keeps_new keeps_deref keeps_position keeps_advance
  keeps_setitem_row keeps_setitem : keeps.

(** Splits a computation along its binds and branches; the leaves are the
    primitives above. *)
Ltac keeps_tac :=
  repeat first
    [ progress intros
    | solve [auto with keeps]
    | apply keeps_for_range
    | apply keeps_bind
    | match goal with
      | |- keeps_tables (match ?x with _ => _ end) => destruct x
      | |- keeps_tables (if ?b then _ else _) => destruct b
      | |- keeps_tables (let '(_, _) := ?x in _) => destruct x
      end ].

Section CellTableFacts.
Context {F : Type} `{Num F}.
Variable raw : nat -> nat.
Variable gauss : nat -> F.
Variable read_fwf_hubble : string -> exn + list (hubble_row (F:=F)).
Variable read_fwf_sn : string -> exn + list (sn_row (F:=F)).
Variable np_polyfit :
  list F -> list F -> list F -> exn + (list F * list (list F)).

Lemma sn_columns_keeps : keeps_tables (F:=F) sn_columns.
Proof.
  unfold sn_columns, get_sn, get_array1, get_ref. keeps_tac.
Qed.

Lemma sn_fit_keeps : keeps_tables (sn_fit np_polyfit).
Proof.
  unfold sn_fit, getitem1, getitem2, get_array1, get_array2, get_fun, get_num, get_ref.
  keeps_tac.
Qed.

Lemma run_cell_keeps c :
  keeps_tables (run_cell raw gauss read_fwf_hubble read_fwf_sn np_polyfit c).
Proof.
  destruct c; simpl.
  - unfold cell_read_hubble. keeps_tac.
  - unfold cell_query, get_hubble, get_ref. keeps_tac.
  - unfold cell_hdelta_mean, get_hubble, get_ref. keeps_tac.
  - unfold cell_bootstrap, random_choice, size2, get_hubble, get_int, get_ref. keeps_tac.
  - unfold cell_h0_mean, get_array2, get_ref. keeps_tac.
  - unfold cell_smooth, random_randn, size2, get_array2, get_int, get_ref. keeps_tac.
  - unfold cell_read_sn. apply keeps_bind; [|intros _; apply keeps_bind; [|intros _]].
    + unfold sn_load, get_str. keeps_tac.
    + apply sn_columns_keeps.
    + apply sn_fit_keeps.
  - unfold cell_rand_indices, random_randint, np_zeros, size2, get_array1, get_int, get_ref.
    keeps_tac.
  - unfold cell_jackknife, jackknife_subsets, jackknife_estimates, jackknife_spread, store_leave_one_out,
      getrow, np_zeros, np_zeros2, get_array1, get_array2, get_fun, get_num, get_int, get_ref.
    keeps_tac.
Qed.

Lemma run_session_keeps cs (s : state (F:=F)) l o :
  heap s !! l = Some o -> is_table o ->
  heap (run_session raw gauss read_fwf_hubble read_fwf_sn np_polyfit cs s) !! l = Some o.
Proof.
  revert s. induction cs as [|c cs IH]; intros s Hl Ho; simpl; [done|].
  apply IH; [|done]. by apply run_cell_keeps.
Qed.

End CellTableFacts.

(** ** Running the cells *)

Section RunFacts.
Context {F : Type} `{Num F}.
Implicit Types (s : state (F:=F)) (v : val (F:=F)) (o : obj (F:=F)).
Implicit Types (e : gmap string (val (F:=F))) (h : list (obj (F:=F))).

Lemma wp_ret {A} (a : A) s Q : Q a s -> wp (mret a) s Q.
Proof. intros HQ. by exists a, s. Qed.

Lemma wp_bind {A B} (m : M (F:=F) A) (k : A -> M (F:=F) B) s Q :
  wp m s (fun a s' => wp (k a) s' Q) -> wp (m ≫= k) s Q.
Proof.
  intros (a & s' & Hm & b & s'' & Hk & HQ). exists b, s''. split; [|done].
  unfold mbind, M_bind. by rewrite Hm.
Qed.

Lemma wp_lift {A} (r : exn + A) a s Q : r = inr a -> Q a s -> wp (lift r) s Q.
Proof. intros -> HQ. by exists a, s. Qed.

Lemma wp_lookup_name x v s Q :
  env s !! x = Some v -> Q v s -> wp (lookup_name x) s Q.
Proof.
  intros Hx HQ. exists v, s. split; [|done]. unfold lookup_name. by rewrite Hx.
Qed.

Lemma wp_assign x v s Q :
  Q () (State (<[x := v]> (env s)) (heap s) (rng_pos s)) -> wp (assign x v) s Q.
Proof. intros HQ. by eexists _, _. Qed.

Lemma wp_new o s Q :
  Q (length (heap s)) (State (env s) (heap s ++ [o]) (rng_pos s)) -> wp (new o) s Q.
Proof. intros HQ. by eexists _, _. Qed.

Lemma wp_deref l o s Q : heap s !! l = Some o -> Q o s -> wp (deref l) s Q.
Proof.
  intros Hl HQ. exists o, s. split; [|done]. unfold deref. by rewrite Hl.
Qed.

Lemma wp_poke l o s Q :
  Q () (State (env s) (<[l := o]> (heap s)) (rng_pos s)) -> wp (poke l o) s Q.
Proof. intros HQ. by eexists _, _. Qed.

Lemma wp_position s Q : Q (rng_pos s) s -> wp position s Q.
Proof. intros HQ. by eexists _, _. Qed.

Lemma wp_advance k s Q :
  Q () (State (env s) (heap s) (rng_pos s + k)) -> wp (advance k) s Q.
Proof. intros HQ. by eexists _, _. Qed.

Lemma wp_reads_array1 x a s Q :
  reads_array1 s x a -> Q a s -> wp (get_array1 x) s Q.
Proof. intros Hx HQ. by exists a, s. Qed.

Lemma wp_eq {A} (m : M (F:=F) A) s a s' :
  wp m s (fun b t => b = a /\ t = s') -> m s = (inr a, s').
Proof. by intros (b & t & -> & -> & ->). Qed.

(** Lookups in a heap that grew at its end. *)
Lemma lookup_heap_old h t l o : h !! l = Some o -> (h ++ t) !! l = Some o.
Proof. intros Hl. rewrite lookup_app_l; [done|]. by eapply lookup_lt_Some. Qed.

Lemma lookup_heap_new h t k : (h ++ t) !! (length h + k) = t !! k.
Proof. rewrite lookup_app_r by lia. f_equal. lia. Qed.

Lemma lookup_heap_new0 h t : (h ++ t) !! length h = t !! 0.
Proof. rewrite <- (lookup_heap_new h t 0). f_equal. lia. Qed.

Lemma insert_heap_new h t k o : <[length h + k := o]> (h ++ t) = h ++ <[k := o]> t.
Proof. rewrite insert_app_r_alt by lia. do 2 f_equal. lia. Qed.

Lemma insert_heap_new0 h t o : <[length h := o]> (h ++ t) = h ++ <[0 := o]> t.
Proof. rewrite <- (insert_heap_new h t 0). f_equal. lia. Qed.

(** *** Reading a 1-D array *)

Lemma reads_array1_array e h p x l a :
  e !! x = Some (VRef l) -> h !! l = Some (Array1 a) ->
  reads_array1 (State e h p) x a.
Proof.
  intros Hx Hl. unfold reads_array1. apply wp_eq.
  unfold get_array1, get_ref.
  apply wp_bind, wp_bind. eapply wp_lookup_name; [done|]. apply wp_ret.
  apply wp_bind. eapply wp_deref; [done|]. by apply wp_ret.
Qed.

Lemma reads_array1_column e h p x l fl c rows :
  e !! x = Some (VRef l) -> h !! l = Some (ColumnOf fl c) ->
  h !! fl = Some (SNFrame rows) ->
  reads_array1 (State e h p) x (sn_column c rows).
Proof.
  intros Hx Hl Hfl. unfold reads_array1. apply wp_eq.
  unfold get_array1, get_ref.
  apply wp_bind, wp_bind. eapply wp_lookup_name; [done|]. apply wp_ret.
  apply wp_bind. eapply wp_deref; [done|].
  apply wp_bind. eapply wp_deref; [done|]. by apply wp_ret.
Qed.

Lemma reads_array1_inv s x a :
  reads_array1 s x a ->
  exists l, env s !! x = Some (VRef l) /\
    (heap s !! l = Some (Array1 a) \/
     exists fl c rows, heap s !! l = Some (ColumnOf fl c) /\
       heap s !! fl = Some (SNFrame rows) /\ a = sn_column c rows).
Proof.
  unfold reads_array1, get_array1, get_ref, mbind, M_bind, lookup_name, deref.
  destruct (env s !! x) as [[]|]; simpl; try done.
  destruct (heap s !! l) as [[]|] eqn:Hl; simpl; try done.
  - destruct (heap s !! frame) as [[]|] eqn:Hfl; simpl; try done.
    intros [= <-]. eexists. split; [done|]. right. by eexists _, _, _.
  - intros [= <-]. eexists. split; [done|]. by left.
Qed.

(** A read stays valid when the heap grows and the name keeps its
    binding. *)
Lemma reads_array1_ext e h p e' t p' x a :
  reads_array1 (State e h p) x a -> e' !! x = e !! x ->
  reads_array1 (State e' (h ++ t) p') x a.
Proof.
  intros (l & Hx & [Hl|(fl & c & rows & Hl & Hfl & ->)])%reads_array1_inv Heq;
    simpl in *; rewrite <- Heq in Hx.
  - eapply reads_array1_array; [done|]. by apply lookup_heap_old.
  - eapply reads_array1_column; [done|by apply lookup_heap_old..].
Qed.

Lemma reads_array1_env e h p e' p' x a :
  reads_array1 (State e h p) x a -> e' !! x = e !! x ->
  reads_array1 (State e' h p') x a.
Proof.
  intros Hr Heq. rewrite <- (app_nil_r h). by eapply reads_array1_ext.
Qed.

(** *** Derived rules *)

Lemma wp_np_zeros n s Q :
  (0 <= n)%Z -> Q (replicate (Z.to_nat n) (of_int 0)) s -> wp (np_zeros n) s Q.
Proof.
  intros Hn HQ. unfold np_zeros. rewrite decide_False by lia. by apply wp_ret.
Qed.

Lemma wp_np_zeros2 r c s Q :
  (0 <= r)%Z -> (0 <= c)%Z ->
  Q (replicate (Z.to_nat r) (replicate (Z.to_nat c) (of_int 0))) s ->
  wp (np_zeros2 r c) s Q.
Proof.
  intros Hr Hc HQ. unfold np_zeros2. rewrite decide_False by lia. by apply wp_ret.
Qed.

Lemma wp_getrow x i l a r s Q :
  env s !! x = Some (VRef l) -> heap s !! l = Some (Array2 a) ->
  a !! i = Some r -> Q r s -> wp (getrow x i) s Q.
Proof.
  intros Hx Hl Hi HQ. unfold getrow, get_array2, get_ref.
  apply wp_bind, wp_bind, wp_bind. eapply wp_lookup_name; [done|]. apply wp_ret.
  apply wp_bind. eapply wp_deref; [done|]. apply wp_ret. cbn beta iota.
  rewrite Hi. by apply wp_ret.
Qed.

Lemma wp_setitem_row x i row l a old s Q :
  env s !! x = Some (VRef l) -> heap s !! l = Some (Array2 a) ->
  a !! i = Some old -> length row = length old ->
  Q () (State (env s) (<[l := Array2 (<[i := row]> a)]> (heap s)) (rng_pos s)) ->
  wp (setitem_row x i row) s Q.
Proof.
  intros Hx Hl Hi Hlen HQ. unfold setitem_row, get_ref.
  apply wp_bind, wp_bind. eapply wp_lookup_name; [done|]. apply wp_ret.
  apply wp_bind. eapply wp_deref; [done|]. cbn beta iota.
  rewrite Hi, decide_True by done. by apply wp_poke.
Qed.

Lemma wp_setitem x i a0 l a s Q :
  env s !! x = Some (VRef l) -> heap s !! l = Some (Array1 a) ->
  (i < length a)%nat ->
  Q () (State (env s) (<[l := Array1 (<[i := a0]> a)]> (heap s)) (rng_pos s)) ->
  wp (setitem x i a0) s Q.
Proof.
  intros Hx Hl Hi HQ. unfold setitem, get_ref.
  apply wp_bind, wp_bind. eapply wp_lookup_name; [done|]. apply wp_ret.
  apply wp_bind. eapply wp_deref; [done|]. cbn beta iota.
  rewrite decide_True by done. by apply wp_poke.
Qed.

Lemma bind_assoc {A B C} (m : M (F:=F) A) (k : A -> M (F:=F) B)
    (k' : B -> M (F:=F) C) s :
  (m ≫= (fun a => k a ≫= k')) s = ((m ≫= k) ≫= k') s.
Proof.
  unfold mbind, M_bind. by destruct (m s) as [[err|a] s'].
Qed.

Lemma bind_ok {A B} (m : M (F:=F) A) (k : A -> M (F:=F) B) s a s' :
  m s = (inr a, s') -> (m ≫= k) s = k a s'.
Proof. intros Hm. unfold mbind, M_bind. by rewrite Hm. Qed.

Lemma bind_err {A B} (m : M (F:=F) A) (k : A -> M (F:=F) B) s err s' :
  m s = (inl err, s') -> (m ≫= k) s = (inl err, s').
Proof. intros Hm. unfold mbind, M_bind. by rewrite Hm. Qed.

(** The loop rule: an invariant indexed by the number of iterations
    done. *)
Lemma wp_for_range (I : nat -> state (F:=F) -> Prop) x n body s Q :
  I 0%nat s ->
  (forall i t, (i < Z.to_nat n)%nat -> I i t ->
               wp (assign x (VInt (Z.of_nat i));; body i) t
                  (fun _ t' => I (S i) t')) ->
  (forall t, I (Z.to_nat n) t -> Q () t) ->
  wp (for_range x n body) s Q.
Proof.
  intros H0 Hstep HQ. unfold for_range.
  assert (forall k a t, (a + k = Z.to_nat n)%nat -> I a t ->
            wp (foldr (fun i rest => assign x (VInt (Z.of_nat i));; body i;; rest)
                      (mret ()) (seq a k)) t Q) as Hgen.
  { induction k as [|k IH]; intros a t Hak Ha; simpl.
    - apply wp_ret, HQ. by replace (Z.to_nat n) with a by lia.
    - unfold wp. setoid_rewrite bind_assoc. apply wp_bind.
      destruct (Hstep a t) as (u & t' & Hb & HI); [lia|done|].
      exists u, t'. split; [done|]. apply IH; [lia|done]. }
  by apply (Hgen (Z.to_nat n) 0%nat s).
Qed.

Lemma loop_env_step e x i :
  <[x := VInt (Z.of_nat i)]> (loop_env e x i) = loop_env e x (S i).
Proof. destruct i; simpl; [done|]. apply insert_insert_eq. Qed.

Lemma loop_env_pos e x n :
  (0 < n)%nat -> loop_env e x n = <[x := VInt (Z.of_nat (n - 1))]> e.
Proof.
  intros Hn. destruct n as [|k]; [lia|]. simpl. by rewrite Nat.sub_0_r.
Qed.

End RunFacts.

Ltac wp_norm :=
  cbn beta iota; cbn [env heap rng_pos];
  rewrite ?length_app, <- ?app_assoc; cbn [length app];
  rewrite <- ?Nat.add_assoc; cbn [Nat.add].

Ltac wp_env :=
  cbn [env heap rng_pos];
  repeat (rewrite lookup_insert_ne by done);
  first [ by rewrite lookup_insert_eq | eassumption ].

Ltac wp_heap :=
  cbn [env heap rng_pos];
  first
    [ eassumption
    | rewrite lookup_heap_new; reflexivity
    | rewrite lookup_heap_new0; reflexivity
    | apply lookup_heap_old; eassumption ].

Ltac wp_reads :=
  first
    [ eassumption
    | eapply reads_array1_ext;
      [ eassumption
      | cbn [env heap rng_pos]; repeat (rewrite lookup_insert_ne by done); reflexivity ]
    | eapply reads_array1_env;
      [ eassumption
      | cbn [env heap rng_pos]; repeat (rewrite lookup_insert_ne by done); reflexivity ]
    | eapply reads_array1_array; [wp_env|wp_heap]
    | eapply reads_array1_column; [wp_env|wp_heap|wp_heap] ].

(** One statement of a cell. *)
Ltac wp_step :=
  lazymatch goal with
  | |- wp (mret _) _ _ => apply wp_ret
  | |- wp (lookup_name _) _ _ => eapply wp_lookup_name; [wp_env|]
  | |- wp (deref _) _ _ => eapply wp_deref; [wp_heap|]
  | |- wp (assign _ _) _ _ => apply wp_assign
  | |- wp (new _) _ _ => apply wp_new
  | |- wp (poke _ _) _ _ => apply wp_poke
  | |- wp position _ _ => apply wp_position
  | |- wp (advance _) _ _ => apply wp_advance
  | |- wp (get_int _) _ _ => unfold get_int
  | |- wp (get_num _) _ _ => unfold get_num
  | |- wp (get_str _) _ _ => unfold get_str
  | |- wp (get_fun _) _ _ => unfold get_fun
  | |- wp (get_ref _) _ _ => unfold get_ref
  | |- wp (get_hubble _) _ _ => unfold get_hubble
  | |- wp (get_sn _) _ _ => unfold get_sn
  | |- wp (get_array2 _) _ _ => unfold get_array2
  | |- wp (get_array1 _) _ _ => eapply wp_reads_array1; [wp_reads|]
  | |- wp (getrow _ _) _ _ => unfold getrow
  | |- wp (_ ≫= _) _ _ => apply wp_bind
  end; wp_norm.

Ltac wp_steps := repeat wp_step.

Section CellRunFacts.
Context {F : Type} `{Num F}.
Implicit Types (s : state (F:=F)) (v : val (F:=F)) (o : obj (F:=F)).
Implicit Types (e : gmap string (val (F:=F))) (h : list (obj (F:=F))).
Variable raw : nat -> nat.
Variable gauss : nat -> F.
Variable read_fwf_hubble : string -> exn + list (hubble_row (F:=F)).
Variable read_fwf_sn : string -> exn + list (sn_row (F:=F)).
Variable np_polyfit :
  list F -> list F -> list F -> exn + (list F * list (list F)).

Lemma wp_size2 r c s Q :
  (0 <= r)%Z -> (0 <= c)%Z -> Q (Z.to_nat r, Z.to_nat c) s ->
  wp (size2 r c) s Q.
Proof.
  intros Hr Hc HQ. unfold size2. rewrite decide_False by lia. by apply wp_ret.
Qed.

Lemma randn_shape pos N n :
  map length (randn gauss pos N n) = replicate N n.
Proof.
  unfold randn. rewrite <- list_fmap_compose.
  erewrite (list_fmap_ext _ (fun _ => n)); [|intros; apply draw_row_length].
  generalize 0%nat. induction N as [|N IH]; intros k; simpl; [done|].
  by rewrite IH.
Qed.

Lemma rows_shape {A} (a : list (list A)) N n :
  length a = N -> Forall (fun row => length row = n) a ->
  map length a = replicate N n.
Proof.
  intros <- Ha. induction Ha as [|row a Hrow _ IH]; simpl; [done|].
  by rewrite Hrow, IH.
Qed.

(** The smoothing cell on a resample array of the bound shape. *)
Lemma cell_smooth_run e h p l hboot N n :
  e !! "hboot" = Some (VRef l) ->
  h !! l = Some (Array2 hboot) ->
  e !! "nbootstraps" = Some (VInt N) ->
  e !! "ndata" = Some (VInt n) ->
  (0 <= N)%Z -> (0 <= n)%Z ->
  length hboot = Z.to_nat N ->
  Forall (fun row => length row = Z.to_nat n) hboot ->
  let sboot := zip_with (zip_with fadd) hboot (randn gauss p (Z.to_nat N) (Z.to_nat n)) in
  cell_smooth gauss (State e h p) =
    (inr (),
     State (<["h0_median_smoothed" := VRef (length h + 1)]>
              (<["sboot" := VRef (length h)]> e))
           (h ++ [Array2 sboot; Array1 (map np_median sboot)])
           (p + Z.to_nat N * Z.to_nat n)).
Proof.
  intros He Hh HN Hn HN0 Hn0 Hlen Hrows sboot.
  apply wp_eq. unfold cell_smooth. wp_steps.
  unfold random_randn. wp_step. eapply wp_size2; [done..|]. wp_steps.
  eapply wp_lift.
  { unfold add2. rewrite decide_True; [done|].
    rewrite randn_shape. by apply rows_shape. }
  wp_steps. done.
Qed.

(** The bootstrap cell on a loaded table. *)
Lemma cell_bootstrap_run e h p l rows :
  e !! "data_modern" = Some (VRef l) ->
  h !! l = Some (HubbleFrame rows) ->
  exists hboot,
    np_random_choice raw p (map h0 rows) (Z.to_nat 10000) (length (map h0 rows))
      = inr hboot /\
    cell_bootstrap raw (State e h p) =
      (inr (),
       State (<["hboot" := VRef (length h)]>
                (<["nbootstraps" := VInt 10000]>
                   (<["ndata" := VInt (Z.of_nat (length (map h0 rows)))]> e)))
             (h ++ [Array2 hboot])
             (p + Z.to_nat 10000 * length (map h0 rows))).
Proof.
  intros He Hh.
  destruct (np_random_choice_spec raw p (map h0 rows) (Z.to_nat 10000))
    as (hboot & Hchoice & _).
  exists hboot. split; [done|].
  apply wp_eq. unfold cell_bootstrap. wp_steps.
  unfold random_choice. wp_step. eapply wp_size2; [lia..|]. wp_steps.
  rewrite Nat2Z.id. eapply wp_lift; [exact Hchoice|]. wp_steps. done.
Qed.

(** A load that fails ends the cell at once. *)
Lemma cell_read_hubble_fails s err :
  read_fwf_hubble "hubble_trim.dat" = inl err ->
  cell_read_hubble read_fwf_hubble s = (inl err, s).
Proof.
  intros Hread. unfold cell_read_hubble, mbind, M_bind, lift. by rewrite Hread.
Qed.

Lemma cell_read_hubble_run e h p rows :
  read_fwf_hubble "hubble_trim.dat" = inr rows ->
  cell_read_hubble read_fwf_hubble (State e h p) =
    (inr (), State (<["data" := VRef (length h)]> e) (h ++ [HubbleFrame rows]) p).
Proof.
  intros Hread. apply wp_eq. unfold cell_read_hubble. wp_step.
  eapply wp_lift; [done|]. wp_steps. done.
Qed.

Lemma sn_load_fails s err :
  read_fwf_sn "sndata.txt" = inl err ->
  sn_load read_fwf_sn s =
    (inl err, State (<["path" := VStr ""]> (env s)) (heap s) (rng_pos s)).
Proof.
  intros Hread.
  unfold sn_load, get_str, mbind, M_bind, assign, lookup_name, lift. simpl.
  rewrite lookup_insert_eq. simpl.
  change ("" +:+ "sndata.txt") with "sndata.txt". by rewrite Hread.
Qed.

Lemma sn_load_run e h p rows :
  read_fwf_sn "sndata.txt" = inr rows ->
  sn_load read_fwf_sn (State e h p) =
    (inr (), State (<["data" := VRef (length h)]> (<["path" := VStr ""]> e))
                   (h ++ [SNFrame rows]) p).
Proof.
  intros Hread. apply wp_eq. unfold sn_load. wp_steps.
  change ("" +:+ "sndata.txt") with "sndata.txt".
  eapply wp_lift; [done|]. wp_steps. done.
Qed.

(** The column statements of the supernova cell, on a loaded table. *)
Lemma sn_columns_run e h p l rows :
  e !! "data" = Some (VRef l) ->
  h !! l = Some (SNFrame rows) ->
  sn_columns (State e h p) =
    (inr (),
     State (<["weight" := VRef (length h + 4)]>
           (<["sigma_mu" := VRef (length h + 3)]>
           (<["mu" := VRef (length h + 2)]>
           (<["logv" := VRef (length h + 1)]>
           (<["cz" := VRef (length h)]> e)))))
           (h ++ [ColumnOf l Col_cz;
                  Array1 (map flog10 (sn_column Col_cz rows));
                  ColumnOf l Col_mu;
                  ColumnOf l Col_sigma_mu;
                  Array1 (map (fun x => fdiv (of_int 1) (fmul x x))
                              (sn_column Col_sigma_mu rows))])
           p).
Proof.
  intros He Hh. apply wp_eq. unfold sn_columns. wp_steps. done.
Qed.

(** The index cell of the bootstrap fit. *)
Lemma cell_rand_indices_run e h p m :
  reads_array1 (State e h p) "mu" m ->
  exists idx,
    randint raw p 0 (length m) (Z.to_nat 10000) (length m) = inr idx /\
    let z := replicate (Z.to_nat 10000) (of_int 0) in
    cell_rand_indices raw (State e h p) =
      (inr (),
       State (<["slope_arr" := VRef (length h + 3)]>
             (<["intercept_arr" := VRef (length h + 2)]>
             (<["h0_boot" := VRef (length h + 1)]>
             (<["rand_indices" := VRef (length h)]>
             (<["ndata" := VInt (Z.of_nat (length m))]>
             (<["nsims" := VInt 10000]> e))))))
             (h ++ [IndexArray idx; Array1 z; Array1 z; Array1 z])
             (p + Z.to_nat 10000 * length m)).
Proof.
  intros Hmu.
  destruct (randint_spec raw p 0 (length m) (Z.to_nat 10000) (length m))
    as (idx & Hidx & _).
  { destruct (length m); [left|right]; lia. }
  exists idx. split; [done|]. intros z.
  apply wp_eq. unfold cell_rand_indices. wp_steps.
  unfold random_randint. wp_step. eapply wp_size2; [lia..|]. wp_steps.
  rewrite Nat2Z.id. change (Z.to_nat 0) with 0%nat.
  eapply wp_lift; [exact Hidx|]. wp_steps.
  eapply wp_np_zeros; [lia|]. wp_steps.
  eapply wp_np_zeros; [lia|]. wp_steps.
  eapply wp_np_zeros; [lia|]. wp_steps. done.
Qed.

(** *** The jackknife loops *)

Lemma jack_rows_lookup col n i :
  (i < n)%nat -> jack_rows col n i !! i = Some (replicate (n - 1) (of_int 0)).
Proof.
  intros Hi. unfold jack_rows.
  rewrite lookup_app_r by (rewrite length_map, length_seq; lia).
  rewrite length_map, length_seq, Nat.sub_diag.
  apply lookup_replicate_2. lia.
Qed.

Lemma jack_rows_insert col n i :
  (i < n)%nat ->
  <[i := leave_one_out col i]> (jack_rows col n i) = jack_rows col n (S i).
Proof.
  intros Hi. unfold jack_rows.
  rewrite insert_app_r_alt by (rewrite length_map, length_seq; lia).
  rewrite length_map, length_seq, Nat.sub_diag.
  replace (n - i)%nat with (S (n - S i)) by lia. simpl replicate.
  rewrite seq_S, map_app, <- app_assoc. done.
Qed.

Lemma jack_rows_done col n :
  jack_rows col n n = map (leave_one_out col) (seq 0 n).
Proof. unfold jack_rows. by rewrite Nat.sub_diag, app_nil_r. Qed.

Lemma jackknife_subsets_run e h p lv m w :
  reads_array1 (State e h p) "logv" lv ->
  reads_array1 (State e h p) "mu" m ->
  reads_array1 (State e h p) "weight" w ->
  length lv = length m -> length w = length m -> m <> [] ->
  jackknife_subsets (State e h p) =
    (inr (),
     State (<["i" := VInt (Z.of_nat (length m - 1))]>
           (<["h0_jack" := VRef (length h + 3)]>
           (<["weight_jack" := VRef (length h + 2)]>
           (<["mu_jack" := VRef (length h + 1)]>
           (<["logv_jack" := VRef (length h)]>
           (<["ndata" := VInt (Z.of_nat (length m))]> e))))))
           (h ++ [Array2 (map (leave_one_out lv) (seq 0 (length m)));
                  Array2 (map (leave_one_out m) (seq 0 (length m)));
                  Array2 (map (leave_one_out w) (seq 0 (length m)));
                  Array1 (replicate (length m - 1) (of_int 0))])
           p).
Proof.
  intros Hlv Hm Hw Hlen_lv Hlen_w Hne.
  assert (0 < length m)%nat as Hpos by (destruct m; [done|simpl; lia]).
  assert (Z.to_nat (Z.of_nat (length m) - 1) = (length m - 1)%nat) as Hn1 by lia.
  apply wp_eq. unfold jackknife_subsets. wp_steps.
  eapply wp_np_zeros2; [lia..|]. wp_steps.
  eapply wp_np_zeros2; [lia..|]. wp_steps.
  eapply wp_np_zeros2; [lia..|]. wp_steps.
  eapply wp_np_zeros; [lia|]. wp_steps.
  rewrite Nat2Z.id, Hn1.
  set (E := <["h0_jack" := _]> _).
  apply (wp_for_range (fun i t =>
    t = State (loop_env E "i" i)
              (h ++ [Array2 (jack_rows lv (length m) i);
                     Array2 (jack_rows m (length m) i);
                     Array2 (jack_rows w (length m) i);
                     Array1 (replicate (length m - 1) (of_int 0))]) p)).
  - unfold jack_rows. simpl. by rewrite Nat.sub_0_r.
  - rewrite Nat2Z.id. intros i t Hi ->.
    apply wp_bind, wp_assign. wp_norm. rewrite loop_env_step.
    cbn [loop_env]. subst E.
    unfold store_leave_one_out. wp_steps.
    eapply wp_setitem_row; [wp_env|wp_heap|by apply jack_rows_lookup| |].
    { rewrite leave_one_out_length, length_replicate by lia. lia. }
    wp_norm. rewrite insert_heap_new0. simpl (<[_ := _]> (_ :: _)).
    wp_steps.
    eapply wp_setitem_row; [wp_env|wp_heap|by apply jack_rows_lookup| |].
    { rewrite leave_one_out_length, length_replicate by lia. lia. }
    wp_norm. rewrite insert_heap_new. simpl (<[_ := _]> (_ :: _)).
    wp_steps.
    eapply wp_setitem_row; [wp_env|wp_heap|by apply jack_rows_lookup| |].
    { rewrite leave_one_out_length, length_replicate by lia. lia. }
    wp_norm. rewrite insert_heap_new. simpl (<[_ := _]> (_ :: _)).
    by rewrite !jack_rows_insert.
  - rewrite Nat2Z.id. intros t ->.
    by rewrite !jack_rows_done, loop_env_pos by done.
Qed.

Lemma lookup_map_seq {A} (g : nat -> A) n i :
  (i < n)%nat -> map g (seq 0 n) !! i = Some (g i).
Proof.
  intros Hi. rewrite list_lookup_fmap, lookup_seq_lt by done. done.
Qed.

(** After the first jackknife loop, row [i] of each subset array reads as
    the leave-one-out list of its column. *)
Lemma jackknife_subsets_rows e h p lv m w :
  reads_array1 (State e h p) "logv" lv ->
  reads_array1 (State e h p) "mu" m ->
  reads_array1 (State e h p) "weight" w ->
  length lv = length m -> length w = length m -> m <> [] ->
  exists s',
    jackknife_subsets (State e h p) = (inr (), s') /\
    forall x col,
      (x, col) ∈ [("logv_jack", lv); ("mu_jack", m); ("weight_jack", w)] ->
      length col = length m /\
      forall i, (i < length m)%nat ->
        getrow x i s' = (inr (leave_one_out col i), s').
Proof.
  intros Hlv Hm Hw Hlen_lv Hlen_w Hne.
  pose proof (jackknife_subsets_run e h p lv m w Hlv Hm Hw Hlen_lv Hlen_w Hne) as Hrun.
  set (s' := State (<["i" := _]> _) _ _) in Hrun.
  exists s'. split; [done|].
  intros x col Hx. subst s'.
  repeat (apply elem_of_cons in Hx as [[= -> ->]|Hx]);
    [ | | |by apply elem_of_nil in Hx];
    (split; [done|]); intros i Hi; apply wp_eq;
    (eapply wp_getrow; [wp_env|wp_heap|by apply lookup_map_seq|done]).
Qed.

Lemma est_rows_length g n i : (i <= n)%nat -> length (est_rows g n i) = n.
Proof.
  intros Hi. unfold est_rows.
  rewrite length_app, length_map, length_seq, length_replicate. lia.
Qed.

Lemma est_rows_insert g n i :
  (i < n)%nat -> <[i := g i]> (est_rows g n i) = est_rows g n (S i).
Proof.
  intros Hi. unfold est_rows.
  rewrite insert_app_r_alt by (rewrite length_map, length_seq; lia).
  rewrite length_map, length_seq, Nat.sub_diag.
  replace (n - i)%nat with (S (n - S i)) by lia. simpl replicate.
  rewrite seq_S, map_app, <- app_assoc. done.
Qed.

Lemma est_rows_done g n : est_rows g n n = map g (seq 0 n).
Proof. unfold est_rows. by rewrite Nat.sub_diag, app_nil_r. Qed.

Lemma map_const_seq {A} (x : A) n : map (fun _ => x) (seq 0 n) = replicate n x.
Proof.
  generalize 0%nat. induction n as [|n IH]; intros k; simpl; [done|]. by rewrite IH.
Qed.

(** The second loop of the jackknife cell when [int_to_H0] and
    [intercept] are bound: every entry of the new [h0_jack] is written
    with the one value [f b]. *)
Lemma jackknife_estimates_run e h p n f b :
  e !! "ndata" = Some (VInt (Z.of_nat n)) ->
  e !! "int_to_H0" = Some (VFun f) ->
  e !! "intercept" = Some (VNum b) ->
  jackknife_estimates (State e h p) =
    (inr (),
     State (loop_env (<["h0_jack" := VRef (length h)]> e) "i" n)
           (h ++ [Array1 (replicate n (f b))]) p).
Proof.
  intros Hnd Hf Hb.
  set (E0 := <["h0_jack" := VRef (length h)]> e).
  set (g := fun _ : nat => f b).
  apply wp_eq. unfold jackknife_estimates. wp_steps.
  eapply wp_np_zeros; [lia|]. wp_steps. rewrite Nat2Z.id. fold E0.
  apply (wp_for_range (fun i t =>
    t = State (loop_env E0 "i" i) (h ++ [Array1 (est_rows g n i)]) p)).
  - unfold est_rows. simpl. by rewrite Nat.sub_0_r.
  - rewrite Nat2Z.id. intros i t Hi ->.
    apply wp_bind, wp_assign. wp_norm. rewrite loop_env_step.
    cbn [loop_env]. subst E0. wp_steps.
    eapply wp_setitem; [wp_env|wp_heap|by rewrite est_rows_length by lia|].
    wp_norm. rewrite insert_heap_new0. simpl (<[_ := _]> (_ :: _)).
    by rewrite (est_rows_insert g).
  - rewrite Nat2Z.id. intros t ->. split; [done|].
    rewrite est_rows_done. subst g. by rewrite map_const_seq.
Qed.

(** The spread statement on a bound array of estimates. *)
Lemma jackknife_spread_run e h p a n :
  reads_array1 (State e h p) "h0_jack" a ->
  e !! "ndata" = Some (VInt n) ->
  jackknife_spread (State e h p) =
    (inr (), State (<["h0_sigma_jack" := VNum (jackknife_sigma a n)]> e) h p).
Proof.
  intros Ha Hn. apply wp_eq. unfold jackknife_spread. wp_steps. done.
Qed.

(** The whole jackknife cell when [int_to_H0] and [intercept] are
    bound. *)
Lemma cell_jackknife_run e h p lv m w f b :
  reads_array1 (State e h p) "logv" lv ->
  reads_array1 (State e h p) "mu" m ->
  reads_array1 (State e h p) "weight" w ->
  length lv = length m -> length w = length m -> m <> [] ->
  e !! "int_to_H0" = Some (VFun f) ->
  e !! "intercept" = Some (VNum b) ->
  let h0_jack := replicate (length m) (f b) in
  exists e',
    cell_jackknife (State e h p) =
      (inr (),
       State e'
         (h ++ [Array2 (map (leave_one_out lv) (seq 0 (length m)));
                Array2 (map (leave_one_out m) (seq 0 (length m)));
                Array2 (map (leave_one_out w) (seq 0 (length m)));
                Array1 (replicate (length m - 1) (of_int 0));
                Array1 h0_jack])
         p) /\
    e' !! "h0_jack" = Some (VRef (length h + 4)) /\
    e' !! "h0_sigma_jack"
      = Some (VNum (jackknife_sigma h0_jack (Z.of_nat (length m)))).
Proof.
  intros Hlv Hm Hw Hlen_lv Hlen_w Hne Hf Hb h0_jack. subst h0_jack.
  set (h0_jack := replicate (length m) (f b)).
  assert (0 < length m)%nat as Hpos by (destruct m; [done|simpl; lia]).
  pose proof (jackknife_subsets_run e h p lv m w Hlv Hm Hw Hlen_lv Hlen_w Hne) as Hsub.
  set (E1 := <["i" := _]> _) in Hsub. set (H1 := h ++ _) in Hsub.
  pose proof (jackknife_estimates_run E1 H1 p (length m) f b) as Hest.
  rewrite loop_env_pos in Hest by done.
  specialize (Hest ltac:(subst E1; wp_env) ltac:(subst E1; wp_env)
                   ltac:(subst E1; wp_env)).
  fold h0_jack in Hest.
  set (E2 := <["i" := _]> (<["h0_jack" := _]> E1)) in Hest.
  assert (length H1 = (length h + 4)%nat) as HlenH
    by (subst H1; rewrite length_app; simpl; lia).
  pose proof (jackknife_spread_run E2 (H1 ++ [Array1 h0_jack]) p h0_jack
                (Z.of_nat (length m))) as Hspread.
  eexists. split; [|split].
  - unfold cell_jackknife. erewrite bind_ok by exact Hsub.
    erewrite bind_ok by exact Hest. rewrite Hspread.
    + subst H1. by rewrite <- app_assoc.
    + eapply reads_array1_array; [subst E2; wp_env|]. by rewrite lookup_heap_new0.
    + subst E2 E1. wp_env.
  - subst E2. rewrite <- HlenH. wp_env.
  - apply lookup_insert_eq.
Qed.

(** The mean cell on a bound resample array. *)
Lemma cell_h0_mean_run e h p l hboot :
  e !! "hboot" = Some (VRef l) ->
  h !! l = Some (Array2 hboot) ->
  cell_h0_mean (State e h p) =
    (inr (), State (<["h0_mean" := VRef (length h)]> e)
                   (h ++ [Array1 (map np_mean hboot)]) p).
Proof.
  intros He Hh. apply wp_eq. unfold cell_h0_mean. wp_steps. done.
Qed.

End CellRunFacts.

(** * The claims *)

Section GenericClaims.
Context {F : Type} `{Num F}.
Implicit Types (s : state (F:=F)) (v : val (F:=F)) (o : obj (F:=F)).
Implicit Types (e : gmap string (val (F:=F))) (h : list (obj (F:=F))).
Variable raw : nat -> nat.
Variable gauss : nat -> F.
Variable read_fwf_hubble : string -> exn + list (hubble_row (F:=F)).
Variable read_fwf_sn : string -> exn + list (sn_row (F:=F)).
Variable np_polyfit :
  list F -> list F -> list F -> exn + (list F * list (list F)).

(** C1.  Every run of the bootstrap cell on a loaded table returns and
    binds [hboot] to a new array of [nbootstraps] = 10000 rows, each of
    the sample size [ndata], the number of observations; every element of
    every row is an element of the observation column (repeats allowed).
    The index array of the second bootstrap, drawn by
    [np.random.randint(0, ndata, (nsims, ndata))], has the same shape, and
    indexing a column of [ndata] values with it returns rows of [ndata]
    elements of that column. *)
Theorem bootstrap_resample_shape_and_members e h p l rows :
  e !! "data_modern" = Some (VRef l) ->
  h !! l = Some (HubbleFrame rows) ->
  (exists hboot s',
     cell_bootstrap raw (State e h p) = (inr (), s') /\
     env s' !! "hboot" = Some (VRef (length h)) /\
     heap s' !! length h = Some (Array2 hboot) /\
     env s' !! "ndata" = Some (VInt (Z.of_nat (length rows))) /\
     length hboot = Z.to_nat 10000 /\
     Forall (fun row => length row = length rows /\
                        forall x, x ∈ row -> x ∈ map h0 rows) hboot) /\
  (forall pos (col : list F),
     exists idx samples,
       randint raw pos 0 (length col) (Z.to_nat 10000) (length col) = inr idx /\
       length idx = Z.to_nat 10000 /\
       Forall (fun irow => length irow = length col) idx /\
       getitems col idx = inr samples /\
       length samples = Z.to_nat 10000 /\
       Forall (fun smp => length smp = length col /\
                          forall x, x ∈ smp -> x ∈ col) samples).
Proof using raw.
  clear gauss read_fwf_hubble read_fwf_sn np_polyfit.
  intros He Hh. split.
  - destruct (cell_bootstrap_run raw e h p l rows He Hh) as (hboot & Hch & Hrun).
    destruct (np_random_choice_spec raw p (map h0 rows) (Z.to_nat 10000))
      as (hboot' & Hch' & Hlen & Hrows).
    rewrite Hch in Hch'. injection Hch' as <-.
    exists hboot. eexists. split; [exact Hrun|]. cbn [env heap].
    split; [wp_env|]. split; [wp_heap|]. split.
    { rewrite length_map. wp_env. }
    split; [done|]. by rewrite length_map in Hrows.
  - intros pos col.
    destruct (randint_spec raw pos 0 (length col) (Z.to_nat 10000) (length col))
      as (idx & Hidx & Hlen & Hrows).
    { destruct (length col); [left|right]; lia. }
    destruct (getitems_spec col idx) as (samples & Hget & Hls & Hsm).
    { eapply Forall_impl; [exact Hrows|]. intros irow [_ Hin]. simpl.
      eapply Forall_impl; [exact Hin|]. simpl. lia. }
    exists idx, samples. split; [done|]. split; [done|]. split.
    { eapply Forall_impl; [exact Hrows|]. by intros irow [? _]. }
    split; [done|]. split; [congruence|].
    apply Forall_forall. intros smp Hin.
    apply list_elem_of_lookup in Hin as [k Hk].
    destruct (Forall2_lookup_l _ _ _ _ _ Hsm Hk) as (irow & Hik & Hl & Hmem).
    split; [|done]. rewrite Hl.
    eapply Forall_lookup_1 in Hrows; [|exact Hik]. tauto.
Qed.

(** C3.  For every index [i] from 0 to [n-1], the [i]-th row of each of
    [logv_jack], [mu_jack] and [weight_jack] after the first jackknife
    loop is the column with its [i]-th element removed: the elements
    before position [i] followed by the elements after it, in order, so
    [n-1] elements in all. *)
Theorem jackknife_subsets_leave_one_out e h p lv m w :
  reads_array1 (State e h p) "logv" lv ->
  reads_array1 (State e h p) "mu" m ->
  reads_array1 (State e h p) "weight" w ->
  length lv = length m -> length w = length m -> m <> [] ->
  exists s',
    jackknife_subsets (State e h p) = (inr (), s') /\
    forall x col,
      (x, col) ∈ [("logv_jack", lv); ("mu_jack", m); ("weight_jack", w)] ->
      forall i, (i < length m)%nat ->
        exists row,
          getrow x i s' = (inr row, s') /\
          row = take i col ++ drop (i + 1) col /\
          length row = (length m - 1)%nat /\
          take i row = take i col /\
          drop i row = drop (S i) col.
Proof using Type.
  clear raw gauss read_fwf_hubble read_fwf_sn np_polyfit.
  intros Hlv Hm Hw Hlen_lv Hlen_w Hne.
  destruct (jackknife_subsets_rows e h p lv m w Hlv Hm Hw Hlen_lv Hlen_w Hne)
    as (s' & Hrun & Hrows).
  exists s'. split; [exact Hrun|].
  intros x col Hx i Hi. destruct (Hrows x col Hx) as [Hcol Hrow].
  exists (leave_one_out col i). split; [by apply Hrow|]. split; [done|].
  rewrite leave_one_out_length, leave_one_out_take, leave_one_out_drop by lia.
  by rewrite Hcol.
Qed.


(** C6.  The columns taken from the supernova table, [cz], [logv], [mu],
    [sigma_mu] and [weight], all have the table's number of rows [n];
    every row of the three jackknife arrays has [n-1] elements; every row
    of the bootstrap index array has [n] entries, and it selects [n]
    elements from each of [logv], [mu] and [weight]. *)
Theorem dependent_columns_have_matching_lengths e h p rows :
  read_fwf_sn "sndata.txt" = inr rows ->
  exists s1,
    (sn_load read_fwf_sn;; sn_columns) (State e h p) = (inr (), s1) /\
    (forall x, x ∈ ["cz"; "logv"; "mu"; "sigma_mu"; "weight"] ->
       exists a, reads_array1 s1 x a /\ length a = length rows) /\
    (rows <> [] ->
     exists s2,
       jackknife_subsets s1 = (inr (), s2) /\
       forall x i, x ∈ ["logv_jack"; "mu_jack"; "weight_jack"] ->
         (i < length rows)%nat ->
         exists row, getrow x i s2 = (inr row, s2) /\
                     length row = (length rows - 1)%nat) /\
    (exists s3 l idx,
       cell_rand_indices raw s1 = (inr (), s3) /\
       env s3 !! "rand_indices" = Some (VRef l) /\
       heap s3 !! l = Some (IndexArray idx) /\
       length idx = Z.to_nat 10000 /\
       forall irow x a, irow ∈ idx -> x ∈ ["logv"; "mu"; "weight"] ->
         reads_array1 s1 x a ->
         length irow = length rows /\
         exists smp, getitems a [irow] = inr [smp] /\ length smp = length rows).
Proof using Type.
  clear gauss read_fwf_hubble np_polyfit.
  intros Hread.
  pose proof (sn_load_run read_fwf_sn e h p rows Hread) as Hload.
  pose proof (sn_columns_run
                (<["data" := VRef (length h)]> (<["path" := VStr ""]> e))
                (h ++ [SNFrame rows]) p (length h) rows) as Hcols.
  rewrite <- !app_assoc, !length_app in Hcols. cbn [length app] in Hcols.
  rewrite <- !Nat.add_assoc in Hcols. cbn [Nat.add] in Hcols.
  specialize (Hcols ltac:(wp_env) ltac:(wp_heap)).
  set (E1 := <["weight" := _]> _) in Hcols.
  set (H1 := h ++ [_; _; _; _; _; _]) in Hcols.
  assert (reads_array1 (State E1 H1 p) "cz" (sn_column Col_cz rows)) as Rcz
    by (subst E1 H1; eapply reads_array1_column; [wp_env|wp_heap|wp_heap]).
  assert (reads_array1 (State E1 H1 p) "logv" (map flog10 (sn_column Col_cz rows))) as Rlogv
    by (subst E1 H1; eapply reads_array1_array; [wp_env|wp_heap]).
  assert (reads_array1 (State E1 H1 p) "mu" (sn_column Col_mu rows)) as Rmu
    by (subst E1 H1; eapply reads_array1_column; [wp_env|wp_heap|wp_heap]).
  assert (reads_array1 (State E1 H1 p) "sigma_mu" (sn_column Col_sigma_mu rows)) as Rsig
    by (subst E1 H1; eapply reads_array1_column; [wp_env|wp_heap|wp_heap]).
  assert (reads_array1 (State E1 H1 p) "weight"
            (map (fun x => fdiv (of_int 1) (fmul x x)) (sn_column Col_sigma_mu rows))) as Rw
    by (subst E1 H1; eapply reads_array1_array; [wp_env|wp_heap]).
  assert (forall c, length (sn_column c rows) = length rows) as Hcl
    by (intros []; simpl; by rewrite length_map).
  exists (State E1 H1 p). split.
  { unfold mbind, M_bind. by rewrite Hload, Hcols. }
  split.
  { intros x Hx.
    repeat (apply elem_of_cons in Hx as [->|Hx]); [ | | | | |by apply elem_of_nil in Hx];
      eexists; (split; [eassumption|]); by rewrite ?length_map, ?Hcl. }
  split.
  { intros Hne.
    destruct (jackknife_subsets_rows E1 H1 p _ _ _ Rlogv Rmu Rw)
      as (s2 & Hrun & Hsub).
    - by rewrite length_map, !Hcl.
    - by rewrite length_map, !Hcl.
    - intros Hnil. apply (f_equal length) in Hnil. rewrite Hcl in Hnil.
      by destruct rows.
    - exists s2. split; [done|]. intros x i Hx Hi.
      rewrite Hcl in Hsub.
      assert (exists col,
                (x, col) ∈ [("logv_jack", map flog10 (sn_column Col_cz rows));
                            ("mu_jack", sn_column Col_mu rows);
                            ("weight_jack",
                             map (fun x => fdiv (of_int 1) (fmul x x))
                                 (sn_column Col_sigma_mu rows))]) as [col Hcol].
      { repeat (apply elem_of_cons in Hx as [->|Hx]);
          [ | | |by apply elem_of_nil in Hx]; eexists.
        - apply list_elem_of_here.
        - apply list_elem_of_further, list_elem_of_here.
        - do 2 apply list_elem_of_further. apply list_elem_of_here. }
      destruct (Hsub x col Hcol) as [Hlen Hrow].
      exists (leave_one_out col i). split; [by apply Hrow|].
      rewrite leave_one_out_length by lia. by rewrite Hlen. }
  destruct (cell_rand_indices_run raw E1 H1 p _ Rmu) as (idx & Hidx & Hrun).
  cbv zeta in Hrun. rewrite Hcl in Hidx, Hrun.
  destruct (randint_spec raw p 0 (length rows) (Z.to_nat 10000) (length rows))
    as (idx' & Hidx' & Hlen & Hrows).
  { destruct (length rows); [left|right]; lia. }
  rewrite Hidx in Hidx'. injection Hidx' as <-.
  eexists _, (length H1), idx. split; [exact Hrun|]. cbn [env heap].
  split; [wp_env|]. split; [wp_heap|]. split; [done|].
  intros irow x a Hin Hx Ha.
  eapply Forall_forall in Hrows as [Hl Hb]; [|exact Hin].
  split; [done|].
  assert (length a = length rows) as Hla.
  { repeat (apply elem_of_cons in Hx as [->|Hx]); [ | | |by apply elem_of_nil in Hx];
      unfold reads_array1 in *;
      [rewrite Rlogv in Ha|rewrite Rmu in Ha|rewrite Rw in Ha];
      injection Ha as <-; by rewrite ?length_map, ?Hcl. }
  destruct (getitems_spec a [irow]) as (r & Hr & Hlr & Hrr).
  { constructor; [|constructor]. eapply Forall_impl; [exact Hb|]. simpl. lia. }
  destruct r as [|smp [|]]; try done.
  exists smp. split; [done|].
  apply Forall2_cons_1 in Hrr as [[Hls _] _]. lia.
Qed.

(** C7.  No cell writes to a loaded table.  Whatever cells run, in
    whatever order and whether they return or raise, a table of the heap
    holds the rows it held before; in particular the table a load bound
    to [data] keeps the rows the load returned.  The date filter builds a
    new table at a new location and leaves the one it reads as it is. *)
Theorem loaded_tables_are_never_mutated e h p cs :
  (forall s l o,
     heap s !! l = Some o -> is_table o ->
     heap (run_session raw gauss read_fwf_hubble read_fwf_sn np_polyfit cs s) !! l
       = Some o) /\
  (forall rows,
     read_fwf_hubble "hubble_trim.dat" = inr rows ->
     exists s1,
       cell_read_hubble read_fwf_hubble (State e h p) = (inr (), s1) /\
       env s1 !! "data" = Some (VRef (length h)) /\
       heap (run_session raw gauss read_fwf_hubble read_fwf_sn np_polyfit cs s1)
         !! length h = Some (HubbleFrame rows)) /\
  (forall rows,
     read_fwf_sn "sndata.txt" = inr rows ->
     heap (run_session raw gauss read_fwf_hubble read_fwf_sn np_polyfit cs
             (cell_read_sn read_fwf_sn np_polyfit (State e h p)).2)
       !! length h = Some (SNFrame rows)) /\
  (forall l rows,
     e !! "data" = Some (VRef l) -> h !! l = Some (HubbleFrame rows) ->
     exists s1 kept,
       cell_query (State e h p) = (inr (), s1) /\
       env s1 !! "data_modern" = Some (VRef (length h)) /\
       heap s1 !! length h = Some (HubbleFrame kept) /\
       l <> length h /\
       heap s1 !! l = Some (HubbleFrame rows)).
Proof using Type.
  split; [|split; [|split]].
  - intros s l o Hl Ho. by apply run_session_keeps.
  - intros rows Hread. eexists. split; [by apply cell_read_hubble_run|].
    cbn [env heap]. split; [wp_env|].
    apply run_session_keeps; [wp_heap|done].
  - intros rows Hread. apply run_session_keeps; [|done].
    unfold cell_read_sn. unfold mbind at 1. unfold M_bind at 1.
    rewrite (sn_load_run read_fwf_sn e h p rows Hread).
    apply keeps_bind; [apply sn_columns_keeps|intros _; apply sn_fit_keeps| |done].
    wp_heap.
  - intros l rows He Hh. eexists _, _. split.
    { apply wp_eq. unfold cell_query. wp_steps. done. }
    cbn [env heap]. split; [wp_env|]. split; [wp_heap|].
    split; [apply lookup_lt_Some in Hh; lia|wp_heap].
Qed.

End GenericClaims.

Section LoadClaims.
Context {F : Type} `{Num F}.
Variable raw : nat -> nat.
Variable gauss : nat -> F.
Variable np_polyfit :
  list F -> list F -> list F -> exn + (list F * list (list F)).
Variable d : disk.
Variable parse_hubble : list string -> list (hubble_row (F:=F)).
Variable parse_sn : list string -> exn + list (sn_row (F:=F)).


End LoadClaims.

Lemma bootstrap_resample_witness :
  exists hboot s',
    cell_bootstrap (fun _ => 0%nat)
      (State {["data_modern" := VRef 0]} [HubbleFrame example_hubble] 0)
      = (inr (), s') /\
    length hboot = Z.to_nat 10000 /\
    Forall (fun row => length row = 2%nat /\
                       forall x, x ∈ row -> x ∈ map h0 example_hubble) hboot.
Proof.
  destruct (bootstrap_resample_shape_and_members (fun _ => 0%nat)
              {["data_modern" := VRef 0]} [HubbleFrame example_hubble]
              0%nat 0%nat example_hubble)
    as [(hboot & s' & Hrun & _ & _ & _ & Hlen & Hrows) _];
    [reflexivity|reflexivity|].
  exists hboot, s'. split; [exact Hrun|]. split; [exact Hlen|exact Hrows].
Defined.

(** ** Exact arithmetic *)

Section ExactClaims.
Local Open Scope R_scope.

(** C2, as amended: at every arithmetic the statement that ends the
    jackknife cell binds [h0_sigma_jack] to the standard deviation of
    the estimates in [h0_jack] times the square root of [ndata - 1]; in
    exact arithmetic, for [ndata >= 1], its square is [ndata - 1] times
    the square of that standard deviation, which is the variance of the
    estimates. *)
Theorem jackknife_sigma_is_scaled_sample_std :
  (forall (F : Type) (H : Num F) (e : gmap string (val (F:=F))) h p
          (h0_jack : list F) (ndata : Z),
     reads_array1 (State e h p) "h0_jack" h0_jack ->
     e !! "ndata" = Some (VInt ndata) ->
     jackknife_spread (State e h p) =
       (inr (),
        State (<["h0_sigma_jack" :=
                   VNum (fmul (np_std h0_jack) (fsqrt (of_int (ndata - 1))))]> e)
              h p)) /\
  (forall (h0_jack : list R) (ndata : Z),
     (1 <= ndata)%Z ->
     let sigma_jack := jackknife_sigma h0_jack ndata in
     sigma_jack = np_std h0_jack * R_sqrt.sqrt (IZR ndata - 1) /\
     sigma_jack² = (IZR ndata - 1) * (np_std h0_jack)² /\
     (np_std h0_jack)² = np_var h0_jack).
Proof.
  split.
  - intros F H e h p h0_jack ndata Ha Hn.
    by apply jackknife_spread_run.
  - intros h0_jack ndata Hn sigma_jack. subst sigma_jack.
    destruct (jackknife_sigma_sqr h0_jack ndata Hn) as [Hsq Hvar].
    rewrite minus_IZR in Hsq.
    split; [|by split].
    unfold jackknife_sigma. cbn [fmul fsqrt of_int exact]. by rewrite minus_IZR.
Qed.

(** C5, as amended: in exact arithmetic, for every intercept [b],
    [int_to_H0 b] is [10^(-0.2*b) * 10^5], which is 10 raised to
    [5 - b/5]. *)
Theorem int_to_H0_closed_form (b : R) :
  int_to_H0 b = Rpower 10 (- 0.2 * b) * 10 ^ 5 /\
  int_to_H0 b = Rpower 10 (5 - b / 5).
Proof.
  split; [apply int_to_H0_unfold|].
  rewrite int_to_H0_unfold, <- Rpower_10_5, <- Rpower_plus.
  f_equal. lra.
Qed.

(** C9, as amended: in exact arithmetic [int_to_H0] is strictly
    decreasing, so for a positive intercept error [err] the value at
    [intercept - err] exceeds the value at [intercept + err] and the
    symmetric error [h0_best_err] is positive. *)
Theorem int_to_H0_strictly_decreasing (b1 b2 intercept err : R) :
  (b1 < b2 -> int_to_H0 b1 > int_to_H0 b2) /\
  (0 < err ->
   int_to_H0 (intercept - err) > int_to_H0 (intercept + err) /\
   h0_best_err intercept err > 0).
Proof.
  split.
  - intros Hlt. by apply int_to_H0_decreasing.
  - intros Herr.
    assert (int_to_H0 (intercept + err) < int_to_H0 (intercept - err)) as Hlt
      by (apply int_to_H0_decreasing; lra).
    split; [exact Hlt|].
    unfold h0_best_err. cbn [fdiv fsub fadd of_int exact]. lra.
Qed.

(** C10, as amended: in exact arithmetic every bootstrap statistic lies
    within the range of the observations.  On a loaded table with at
    least one row, the bootstrap cell and the mean cell return,
    [h0_mean] holds the means of the rows of [hboot], and the mean and
    the median of every row lie between the minimum and the maximum of
    the observation column. *)
Theorem bootstrap_statistics_within_data_range (raw : nat -> nat) e h p l rows :
  e !! "data_modern" = Some (VRef l) ->
  h !! l = Some (HubbleFrame rows) ->
  rows <> [] ->
  let data := map h0 rows in
  exists hboot s1 s2,
    cell_bootstrap raw (State e h p) = (inr (), s1) /\
    heap s1 !! length h = Some (Array2 hboot) /\
    cell_h0_mean s1 = (inr (), s2) /\
    reads_array1 s2 "h0_mean" (map np_mean hboot) /\
    Forall (fun row =>
              (forall x, x ∈ row -> x ∈ data) /\
              np_min data <= np_mean row <= np_max data /\
              np_min data <= np_median row <= np_max data) hboot.
Proof.
  intros He Hh Hne data.
  destruct (cell_bootstrap_run raw e h p l rows He Hh) as (hboot & Hch & Hrun).
  destruct (np_random_choice_spec raw p (map h0 rows) (Z.to_nat 10000))
    as (hboot' & Hch' & Hlen & Hrows).
  rewrite Hch in Hch'. injection Hch' as <-.
  eexists hboot, _, _. split; [exact Hrun|]. cbn [env heap].
  split; [wp_heap|].
  split; [eapply cell_h0_mean_run; [wp_env|wp_heap]|].
  split; [eapply reads_array1_array; [wp_env|wp_heap]|].
  eapply Forall_impl; [exact Hrows|]. intros row [Hl Hmem]. simpl.
  assert (row <> []) as Hrow.
  { intros ->. simpl in Hl. rewrite length_map in Hl.
    destruct rows; [by apply Hne|discriminate Hl]. }
  assert (forall x, x ∈ row -> np_min data <= x <= np_max data) as Hb
    by (intros x Hx; apply np_min_max_bounds, Hmem, Hx).
  split; [exact Hmem|].
  split; [by apply np_mean_bounds|by apply np_median_bounds].
Qed.

End ExactClaims.

(** ** binary64 arithmetic: where the order claims stop *)

(** C9 fails in binary64.  The inputs [0] and [2^-1074] are in increasing
    order, and for both the product [-0.2*b] is the number [-0]: whatever
    the power function returns there, [int_to_H0] takes one value at both
    and the first is not greater than the second.  Likewise, at the
    intercept [16] with the positive error [1e-16] (the binary64 number
    [0x1.cd2b297d889bcp-54]) both [16 - 1e-16] and [16 + 1e-16] round to
    [16], and [h0_best_err] is not positive. *)
Lemma int_to_H0_binary64_not_strictly_decreasing :
  (PrimFloat.ltb 0 0x1p-1074 = true /\
   forall pw lg,
     @flt _ (binary64 pw lg)
       (@int_to_H0 _ (binary64 pw lg) 0x1p-1074%float)
       (@int_to_H0 _ (binary64 pw lg) 0%float)
     = false) /\
  (PrimFloat.ltb 0 0x1.cd2b297d889bcp-54 = true /\
   forall pw lg,
     @flt _ (binary64 pw lg) 0%float
       (@h0_best_err _ (binary64 pw lg) 16%float 0x1.cd2b297d889bcp-54%float)
     = false).
Proof.
  split; (split; [done|]); intros pw lg.
  - apply int_to_H0_binary64_tie.
  - apply h0_best_err_binary64_not_positive.
Qed.

(** C10 fails in binary64.  On the table [tenths] the bootstrap cell and
    the mean cell return, whatever the generator draws, and every one of
    the 10000 entries of [h0_mean] is greater than the maximum of the
    observations: each resample is [0.1, 0.1, 0.1], whose sum rounds up
    and whose mean is the next binary64 number above 0.1. *)
Lemma bootstrap_mean_binary64_exceeds_max :
  tenths <> [] /\
  forall pw lg raw,
    exists hboot s1 s2,
      cell_bootstrap raw
        (State {["data_modern" := VRef 0]} [HubbleFrame tenths] 0)
        = (inr (), s1) /\
      heap s1 !! 1%nat = Some (Array2 hboot) /\
      length hboot = Z.to_nat 10000 /\
      @cell_h0_mean _ (binary64 pw lg) s1 = (inr (), s2) /\
      reads_array1 s2 "h0_mean" (map (@np_mean _ (binary64 pw lg)) hboot) /\
      Forall (fun mean =>
                @flt _ (binary64 pw lg)
                  (@np_max _ (binary64 pw lg) (map h0 tenths)) mean = true)
             (map (@np_mean _ (binary64 pw lg)) hboot).
Proof.
  split; [done|]. intros pw lg raw.
  destruct (cell_bootstrap_run raw {["data_modern" := VRef 0]}
              [HubbleFrame tenths] 0%nat 0%nat tenths)
    as (hboot & Hch & Hrun); [reflexivity..|].
  destruct (np_random_choice_spec raw 0%nat (map h0 tenths) (Z.to_nat 10000))
    as (hboot' & Hch' & Hlen & Hrows).
  rewrite Hch in Hch'. injection Hch' as <-.
  eexists hboot, _, _. split; [exact Hrun|]. cbn [env heap].
  split; [done|]. split; [done|].
  split; [eapply (@cell_h0_mean_run _ (binary64 pw lg)); [wp_env|done]|].
  split; [eapply reads_array1_array; [wp_env|done]|].
  apply Forall_fmap. eapply Forall_impl; [exact Hrows|].
  intros row [Hl Hmem]. simpl.
  assert (forall x, x ∈ row -> x = 0x1.999999999999ap-4%float) as Hall.
  { intros x Hx. apply Hmem in Hx. simpl in Hx.
    repeat (apply elem_of_cons in Hx as [->|Hx]); try done.
    by apply elem_of_nil in Hx. }
  destruct row as [|a [|b [|c [|]]]]; try done.
  rewrite (Hall a), (Hall b), (Hall c) by (repeat constructor).
  reflexivity.
Qed.

(** C2 fails in binary64.  For the estimates [70, 71, 69] and
    [ndata = 3] the product [np.std(h0_jack)*np.sqrt(ndata-1)] is
    [0x1.279a74590331dp+0]; its square is [0x1.5555555555557p+0], while
    [ndata - 1] times the square of the standard deviation is
    [0x1.5555555555555p+0]. *)
Lemma jackknife_sigma_binary64_square_differs :
  (1 <= 3)%Z /\
  forall pw lg,
    let sigma_jack := @jackknife_sigma _ (binary64 pw lg) [70; 71; 69]%float 3 in
    let sigma_sample := @np_std _ (binary64 pw lg) [70; 71; 69]%float in
    sigma_jack = 0x1.279a74590331dp+0%float /\
    (sigma_jack * sigma_jack = 0x1.5555555555557p+0)%float /\
    (2 * (sigma_sample * sigma_sample) = 0x1.5555555555555p+0)%float /\
    PrimFloat.eqb (sigma_jack * sigma_jack)
                  (2 * (sigma_sample * sigma_sample)) = false.
Proof.
  split; [lia|]. intros pw lg. by repeat split.
Qed.

(** C5 fails in binary64.  At [b = 1640] the product [-0.2*b] is [-328]
    and [5 - b/5] is [-323].  The number [10^-328] is smaller than half
    the smallest positive binary64 number, so the power function returns
    0 there and [int_to_H0] returns 0; [10^-323] is about twice the
    smallest positive number, so the power function returns a positive
    number there.  For every power function with these two values
    [int_to_H0 1640] is 0 and differs from [10**(5 - 1640/5)]. *)
Lemma int_to_H0_binary64_closed_form_differs :
  (PrimFloat.mul (PrimFloat.opp 0x1.999999999999ap-3) 1640 = (-328)%float /\
   PrimFloat.sub 5 (PrimFloat.div 1640 5) = (-323)%float) /\
  forall pw lg,
    pw 10%float (-328)%float = 0%float ->
    PrimFloat.ltb 0 (pw 10%float (-323)%float) = true ->
    @int_to_H0 _ (binary64 pw lg) 1640%float = 0%float /\
    PrimFloat.eqb (@int_to_H0 _ (binary64 pw lg) 1640%float)
                  (pw 10%float (PrimFloat.sub 5 (PrimFloat.div 1640 5))) = false.
Proof.
  split; [by split|]. intros pw lg Hzero Hpos.
  assert (@int_to_H0 _ (binary64 pw lg) 1640%float = 0%float) as H0.
  { unfold int_to_H0, decimal, binary64. cbn [of_int fmul fpow fneg fdiv].
    change (float_of_int 10) with 10%float.
    change (float_of_int 2 / float_of_int (10 ^ Z.of_nat 1) )%float
      with 0x1.999999999999ap-3%float.
    change (PrimFloat.mul (PrimFloat.opp 0x1.999999999999ap-3) 1640)
      with (-328)%float.
    rewrite Hzero. reflexivity. }
  split; [exact H0|]. rewrite H0.
  change (PrimFloat.sub 5 (PrimFloat.div 1640 5)) with (-323)%float.
  rewrite FloatAxioms.eqb_spec. rewrite FloatAxioms.ltb_spec in Hpos.
  change (Prim2SF 0) with (S754_zero false) in *.
  unfold SFeqb, SFltb, SFcompare in *.
  destruct (Prim2SF (pw 10%float (-323)%float)) as [sg|sg| |sg mm ee];
    try done; by destruct sg.
Qed.


(** ** The claims at concrete inputs *)

Section Witnesses.
Local Open Scope R_scope.

Lemma jackknife_sigma_witness :
  jackknife_spread (State estimates_env estimates_heap 0) =
    (inr (),
     State (<["h0_sigma_jack" :=
                VNum (np_std [70; 71; 69] * R_sqrt.sqrt (IZR (3 - 1)))]>
              estimates_env)
           estimates_heap 0) /\
  (jackknife_sigma [70; 71; 69] 3)² = (3 - 1) * np_var [70; 71; 69].
Proof.
  destruct jackknife_sigma_is_scaled_sample_std as [Hrun Hsq].
  split.
  - apply (Hrun R exact estimates_env estimates_heap 0%nat [70; 71; 69] 3%Z);
      reflexivity.
  - destruct (Hsq [70; 71; 69] 3%Z) as (_ & H2 & H3); [lia|].
    rewrite H2, H3. reflexivity.
Defined.

Lemma jackknife_subsets_witness :
  exists s',
    jackknife_subsets (State jack_env jack_heap 0) = (inr (), s') /\
    getrow "mu_jack" 1 s' = (inr [33; 35], s').
Proof.
  destruct (jackknife_subsets_leave_one_out jack_env jack_heap 0%nat
              [3; 4; 5] [33; 34; 35] [25; 25; 11])
    as (s' & Hrun & Hrows);
    [reflexivity|reflexivity|reflexivity|reflexivity|reflexivity|discriminate|].
  exists s'. split; [exact Hrun|].
  destruct (Hrows "mu_jack" [33; 34; 35]) with (i := 1%nat)
    as (row & Hget & Hrow & _).
  - apply list_elem_of_further, list_elem_of_here.
  - simpl. lia.
  - rewrite Hrow in Hget. exact Hget.
Defined.


Lemma dependent_columns_witness :
  exists s1 (a : list R),
    (sn_load (fun _ => inr example_sn);; sn_columns) (State ∅ [] 0) = (inr (), s1) /\
    reads_array1 s1 "weight" a /\ length a = 3%nat.
Proof.
  destruct (dependent_columns_have_matching_lengths (fun _ => 0%nat)
              (fun _ => inr example_sn) ∅ [] 0%nat example_sn)
    as (s1 & Hrun & Hcols & _); [reflexivity|].
  destruct (Hcols "weight") as (a & Ha & Hlen).
  - do 4 apply list_elem_of_further. apply list_elem_of_here.
  - exists s1, a. split; [exact Hrun|]. split; [exact Ha|exact Hlen].
Defined.

Lemma loaded_tables_witness :
  exists s1,
    cell_read_hubble (fun _ => inr example_hubble) (State ∅ [] 0) = (inr (), s1) /\
    heap (run_session (fun _ => 0%nat) (fun _ => 0) (fun _ => inr example_hubble)
            no_file always_fit
            [Query; Bootstrap; H0Mean; Smooth; ReadSN; RandIndices; Jackknife] s1)
      !! 0%nat = Some (HubbleFrame example_hubble).
Proof.
  destruct (loaded_tables_are_never_mutated (fun _ => 0%nat) (fun _ => 0)
              (fun _ => inr example_hubble) no_file always_fit ∅ [] 0%nat
              [Query; Bootstrap; H0Mean; Smooth; ReadSN; RandIndices; Jackknife])
    as (_ & Hload & _).
  destruct (Hload example_hubble) as (s1 & Hrun & _ & Hkept); [reflexivity|].
  exists s1. split; [exact Hrun|exact Hkept].
Defined.


Lemma int_to_H0_decreasing_witness :
  (0 < 1 /\ int_to_H0 0 > int_to_H0 1) /\
  (0 < 0.5 /\ h0_best_err 16 0.5 > 0).
Proof.
  destruct (int_to_H0_strictly_decreasing 0 1 16 0.5) as [Hdec Herr].
  split.
  - split; [lra|apply Hdec; lra].
  - split; [lra|apply Herr; lra].
Defined.

Lemma bootstrap_statistics_witness :
  exists (hboot : list (list R)) s1,
    cell_bootstrap (fun _ => 0%nat)
      (State {["data_modern" := VRef 0]} [HubbleFrame example_hubble] 0)
      = (inr (), s1) /\
    Forall (fun row =>
              np_min (map h0 example_hubble) <= np_mean row
                <= np_max (map h0 example_hubble)) hboot.
Proof.
  destruct (bootstrap_statistics_within_data_range (fun _ => 0%nat)
              {["data_modern" := VRef 0]} [HubbleFrame example_hubble]
              0%nat 0%nat example_hubble)
    as (hboot & s1 & s2 & Hrun & _ & _ & _ & Hrange);
    [reflexivity|reflexivity|discriminate|].
  exists hboot, s1. split; [exact Hrun|].
  eapply Forall_impl; [exact Hrange|]. intros row (_ & Hmean & _). exact Hmean.
Defined.

End Witnesses.
(** * Further properties of the cells *)

(** ** Names a cell does not assign keep their binding *)

Section NameFacts.
Context {F : Type} `{Num F}.
Implicit Types (s : state (F:=F)) (v : val (F:=F)) (o : obj (F:=F)).

Lemma names_state {A} X (m : M (F:=F) A) :
  (forall s, env (m s).2 = env s) -> keeps_names X m.
Proof. intros Hm s x _. by rewrite Hm. Qed.

Lemma names_ret {A} X (a : A) : keeps_names (F:=F) X (mret a).
Proof. by apply names_state. Qed.

Lemma names_raise {A} X e : keeps_names (F:=F) X (raise (A:=A) e).
Proof. by apply names_state. Qed.

Lemma names_lift {A} X (r : exn + A) : keeps_names (F:=F) X (lift r).
Proof. by apply names_state. Qed.

Lemma names_bind {A B} X (m : M (F:=F) A) (k : A -> M (F:=F) B) :
  keeps_names X m -> (forall a, keeps_names X (k a)) -> keeps_names X (m ≫= k).
Proof.
  intros Hm Hk s x Hx. unfold mbind, M_bind.
  specialize (Hm s x Hx).
  destruct (m s) as [[e|a] s']; simpl in *; [done|].
  by rewrite Hk.
Qed.

Lemma names_lookup_name X x : keeps_names (F:=F) X (lookup_name x).
Proof. apply names_state. intros s. unfold lookup_name. by destruct (env s !! x). Qed.

Lemma names_assign X x v : x ∈ X -> keeps_names X (assign x v).
Proof.
  intros Hx s y Hy. simpl. apply lookup_insert_ne. by intros ->.
Qed.

Lemma names_new X o : keeps_names X (new o).
Proof. by apply names_state. Qed.

Lemma names_deref X l : keeps_names (F:=F) X (deref l).
Proof. apply names_state. intros s. unfold deref. by destruct (heap s !! l). Qed.

Lemma names_poke X l o : keeps_names X (poke l o).
Proof. by apply names_state. Qed.

Lemma names_position X : keeps_names (F:=F) X position.
Proof. by apply names_state. Qed.

Lemma names_advance X k : keeps_names (F:=F) X (advance k).
Proof. by apply names_state. Qed.

Lemma names_for_range X x n (body : nat -> M (F:=F) unit) :
  x ∈ X -> (forall i, keeps_names X (body i)) -> keeps_names X (for_range x n body).
Proof.
  intros Hx Hb. unfold for_range.
  induction (seq 0 (Z.to_nat n)) as [|i t IH]; simpl.
  - apply names_ret.
  - apply names_bind; [by apply names_assign|]. intros _.
    apply names_bind; [apply Hb|]. intros _. apply IH.
Qed.

End NameFacts.

Create HintDb names discriminated.

#[export] Hint Resolve names_ret names_raise names_lift names_lookup_name
  names_new names_deref names_poke names_position names_advance : names.

Ltac in_list :=
  solve [repeat first [apply list_elem_of_here | apply list_elem_of_further]].

Ltac names_tac :=
  repeat first
    [ progress intros
    | solve [auto with names]
    | apply names_assign; in_list
    | apply names_for_range; [in_list|]
    | apply names_bind
    | match goal with
      | |- keeps_names _ (match ?x with _ => _ end) => destruct x
      | |- keeps_names _ (if ?b then _ else _) => destruct b
      | |- keeps_names _ (let '(_, _) := ?x in _) => destruct x
      end ].

Section CellNameFacts.
Context {F : Type} `{Num F}.
Variable raw : nat -> nat.
Variable gauss : nat -> F.
Variable read_fwf_hubble : string -> exn + list (hubble_row (F:=F)).
Variable read_fwf_sn : string -> exn + list (sn_row (F:=F)).
Variable np_polyfit :
  list F -> list F -> list F -> exn + (list F * list (list F)).

Lemma run_cell_names c :
  keeps_names (assigned c)
    (run_cell raw gauss read_fwf_hubble read_fwf_sn np_polyfit c).
Proof.
  destruct c; cbn [run_cell assigned];
    unfold cell_read_hubble, cell_query, cell_hdelta_mean, cell_bootstrap,
      cell_h0_mean, cell_smooth, cell_read_sn, sn_load, sn_columns, sn_fit,
      cell_rand_indices, cell_jackknife, jackknife_subsets, jackknife_estimates, jackknife_spread,
      store_leave_one_out, setitem_row, setitem, getrow, getitem1, getitem2,
      random_choice, random_randint, random_randn, size2, np_zeros, np_zeros2,
      get_hubble, get_sn, get_array1, get_array2, get_fun, get_num, get_str,
      get_int, get_ref;
    names_tac.
Qed.

End CellNameFacts.

(** ** Objects are only appended *)

Section AppendFacts.
Context {F : Type} `{Num F}.
Implicit Types (s : state (F:=F)) (v : val (F:=F)) (o : obj (F:=F)).
Implicit Types (P : state (F:=F) -> Prop) (X : list string).
Variable b : nat.

Lemma app_state {A} P (m : M (F:=F) A) :
  (forall s, (m s).2 = s) -> appends_from b P m (fun _ => P).
Proof. intros Hm s HP Hb. rewrite Hm. by repeat split. Qed.

Lemma app_ret {A} P (a : A) : appends_from b P (mret a) (fun _ => P).
Proof. by apply app_state. Qed.

Lemma app_raise {A} P e Q : appends_from b P (raise (A:=A) e) Q.
Proof. intros s HP Hb. by repeat split. Qed.

Lemma app_lift {A} P (r : exn + A) : appends_from b P (lift r) (fun _ => P).
Proof. by apply app_state. Qed.

Lemma app_lookup_name P x : appends_from b P (lookup_name x) (fun _ => P).
Proof. apply app_state. intros s. unfold lookup_name. by destruct (env s !! x). Qed.

Lemma app_deref P l : appends_from b P (deref l) (fun _ => P).
Proof. apply app_state. intros s. unfold deref. by destruct (heap s !! l). Qed.

Lemma app_position P : appends_from b P position (fun _ => P).
Proof. by apply app_state. Qed.

Lemma app_bind {A B} P (m : M (F:=F) A) (k : A -> M (F:=F) B) Q R :
  appends_from b P m Q -> (forall a, appends_from b (Q a) (k a) R) ->
  appends_from b P (m ≫= k) R.
Proof.
  intros Hm Hk s HP Hb. unfold mbind, M_bind.
  destruct (Hm s HP Hb) as (Ht & Hl & HQ).
  destruct (m s) as [[e|a] s']; simpl in *; [done|].
  destruct (Hk a s' (HQ a eq_refl) Hl) as (Ht' & Hl' & HR).
  split; [congruence|done].
Qed.

Lemma app_pre_pure {A} (phi : Prop) P (m : M (F:=F) A) Q :
  (phi -> appends_from b P m Q) -> appends_from b (fun s => phi /\ P s) m Q.
Proof. intros Hm s [Hphi HP]. by apply Hm. Qed.

Lemma app_advance X k :
  appends_from (F:=F) b (owned b X) (advance k) (fun _ => owned b X).
Proof. intros s HP Hb. by repeat split. Qed.

Lemma app_new X o :
  appends_from b (owned b X) (new o) (fun l s => (b <= l)%nat /\ owned b X s).
Proof.
  intros s HP Hb. simpl. split; [by apply take_app_le|].
  split; [rewrite length_app; lia|]. by intros a [= <-].
Qed.

Lemma app_assign_ref X x l :
  (b <= l)%nat ->
  appends_from (F:=F) b (owned b X) (assign x (VRef l)) (fun _ => owned b (x :: X)).
Proof.
  intros Hl s HP Hb. simpl. repeat split; [done|].
  intros _ _ y l' Hy. simpl. destruct (decide (y = x)) as [->|Hne].
  - rewrite lookup_insert_eq. by intros [= <-].
  - rewrite lookup_insert_ne by done.
    apply elem_of_cons in Hy as [?|Hy]; [done|]. by apply HP.
Qed.

Lemma app_assign_val X x v :
  (forall l, v <> VRef l) ->
  appends_from b (owned b X) (assign x v) (fun _ => owned b X).
Proof.
  intros Hv s HP Hb. simpl. repeat split; [done|].
  intros _ _ y l' Hy. simpl. destruct (decide (y = x)) as [->|Hne].
  - rewrite lookup_insert_eq. intros [= ->]. by destruct (Hv l').
  - rewrite lookup_insert_ne by done. by apply HP.
Qed.

(** An in-place write through an owned name lands at or after [b]. *)
Lemma app_setitem_row X x i row :
  x ∈ X -> appends_from (F:=F) b (owned b X) (setitem_row x i row) (fun _ => owned b X).
Proof.
  intros Hx s HP Hb.
  unfold setitem_row, get_ref, mbind, M_bind, lookup_name, deref.
  destruct (env s !! x) as [[]|] eqn:Hex; simpl; try done.
  destruct (heap s !! l) as [[]|] eqn:Hl; simpl; try done.
  destruct (a !! i); simpl; [|done]. case_decide; simpl; [|done].
  pose proof (HP x l Hx Hex) as Hbl.
  split; [by apply take_insert_ge|]. split; [by rewrite length_insert|done].
Qed.

Lemma app_setitem X x i a0 :
  x ∈ X -> appends_from (F:=F) b (owned b X) (setitem x i a0) (fun _ => owned b X).
Proof.
  intros Hx s HP Hb.
  unfold setitem, get_ref, mbind, M_bind, lookup_name, deref.
  destruct (env s !! x) as [[]|] eqn:Hex; simpl; try done.
  destruct (heap s !! l) as [[]|] eqn:Hl; simpl; try done.
  case_decide; simpl; [|done].
  pose proof (HP x l Hx Hex) as Hbl.
  split; [by apply take_insert_ge|]. split; [by rewrite length_insert|done].
Qed.

Lemma app_for_range X x n (body : nat -> M (F:=F) unit) :
  (forall i, appends_from b (owned b X) (body i) (fun _ => owned b X)) ->
  appends_from (F:=F) b (owned b X) (for_range x n body) (fun _ => owned b X).
Proof.
  intros Hb. unfold for_range.
  induction (seq 0 (Z.to_nat n)) as [|i t IH]; simpl.
  - apply app_ret.
  - eapply app_bind; [by apply app_assign_val|]. intros [].
    eapply app_bind; [apply Hb|]. intros []. apply IH.
Qed.

Lemma owned_nil s : owned (F:=F) b [] s.
Proof. intros x l Hx. by apply elem_of_nil in Hx. Qed.

End AppendFacts.

(** One statement of a cell, by its head. *)
Ltac app_step :=
  cbn beta;
  lazymatch goal with
  | |- forall _, _ => intros
  | |- appends_from _ (fun _ => _ /\ _) _ _ => apply app_pre_pure; intros
  | |- appends_from _ _ (_ ≫= _) _ => eapply app_bind
  | |- appends_from _ _ (mret _) _ => apply app_ret
  | |- appends_from _ _ (raise _) _ => apply app_raise
  | |- appends_from _ _ (lift _) _ => apply app_lift
  | |- appends_from _ _ (lookup_name _) _ => apply app_lookup_name
  | |- appends_from _ _ (deref _) _ => apply app_deref
  | |- appends_from _ _ position _ => apply app_position
  | |- appends_from _ _ (advance _) _ => apply app_advance
  | |- appends_from _ _ (new _) _ => apply app_new
  | |- appends_from _ _ (assign _ (VRef _)) _ => apply app_assign_ref; assumption
  | |- appends_from _ _ (assign _ _) _ => apply app_assign_val; intros ?; discriminate
  | |- appends_from _ _ (setitem_row _ _ _) _ => apply app_setitem_row; in_list
  | |- appends_from _ _ (setitem _ _ _) _ => apply app_setitem; in_list
  | |- appends_from _ _ (for_range _ _ _) _ => apply app_for_range
  | |- appends_from _ _ (match ?x with _ => _ end) _ => destruct x
  | |- appends_from _ _ (if ?c then _ else _) _ => destruct c
  | |- appends_from _ _ (let '(_, _) := ?x in _) _ => destruct x
  end.

Ltac app_tac := repeat app_step.

Section CellAppendFacts.
Context {F : Type} `{Num F}.
Variable raw : nat -> nat.
Variable gauss : nat -> F.
Variable read_fwf_hubble : string -> exn + list (hubble_row (F:=F)).
Variable read_fwf_sn : string -> exn + list (sn_row (F:=F)).
Variable np_polyfit :
  list F -> list F -> list F -> exn + (list F * list (list F)).

Lemma run_cell_appends_from b c :
  exists Q,
    appends_from b (owned b [])
      (run_cell raw gauss read_fwf_hubble read_fwf_sn np_polyfit c) Q.
Proof.
  destruct c; eexists; cbn [run_cell];
    unfold cell_read_hubble, cell_query, cell_hdelta_mean, cell_bootstrap,
      cell_h0_mean, cell_smooth, cell_read_sn, sn_load, sn_columns, sn_fit,
      cell_rand_indices, cell_jackknife, jackknife_subsets, jackknife_estimates, jackknife_spread,
      store_leave_one_out, getrow, getitem1, getitem2,
      random_choice, random_randint, random_randn, size2, np_zeros, np_zeros2,
      get_hubble, get_sn, get_array1, get_array2, get_fun, get_num, get_str,
      get_int, get_ref.
  all: app_tac.
Qed.

Lemma run_cell_prefix c s :
  exists t,
    heap (run_cell raw gauss read_fwf_hubble read_fwf_sn np_polyfit c s).2
      = heap s ++ t.
Proof.
  destruct (run_cell_appends_from (length (heap s)) c) as [Q HQ].
  destruct (HQ s (owned_nil _ s) (le_n _)) as (Ht & _ & _).
  rewrite (take_ge (heap s) (length (heap s))) in Ht by done.
  pose proof (take_drop (length (heap s))
    (heap (run_cell raw gauss read_fwf_hubble read_fwf_sn np_polyfit c s).2)) as Htd.
  rewrite Ht in Htd. eexists. symmetry. exact Htd.
Qed.

End CellAppendFacts.

(** ** More runs *)

Section MoreRunFacts.
Context {F : Type} `{Num F}.
Implicit Types (s : state (F:=F)) (v : val (F:=F)) (o : obj (F:=F)).
Implicit Types (e : gmap string (val (F:=F))) (h : list (obj (F:=F))).
Variable raw : nat -> nat.
Variable gauss : nat -> F.
Variable read_fwf_hubble : string -> exn + list (hubble_row (F:=F)).
Variable read_fwf_sn : string -> exn + list (sn_row (F:=F)).
Variable np_polyfit :
  list F -> list F -> list F -> exn + (list F * list (list F)).

Lemma cell_query_run e h p l rows :
  e !! "data" = Some (VRef l) ->
  h !! l = Some (HubbleFrame rows) ->
  cell_query (State e h p) =
    (inr (),
     State (<["data_modern" := VRef (length h)]> e)
           (h ++ [HubbleFrame (List.filter (fun r => flt (of_int 2001) (date r)) rows)])
           p).
Proof.
  intros He Hh. apply wp_eq. unfold cell_query. wp_steps. done.
Qed.

Lemma cell_hdelta_mean_run e h p l rows :
  e !! "data_modern" = Some (VRef l) ->
  h !! l = Some (HubbleFrame rows) ->
  cell_hdelta_mean (State e h p) =
    (inr (), State (<["hdelta_mean" := VNum (np_mean (map h0 rows))]> e) h p).
Proof.
  intros He Hh. apply wp_eq. unfold cell_hdelta_mean. wp_steps. done.
Qed.

(** The fit statements of the supernova cell, when the fit returns a
    slope, an intercept and a covariance matrix with an entry [1,1]. *)
Lemma sn_fit_run e h p lv m w coeffs covar c0 c1 var :
  reads_array1 (State e h p) "logv" lv ->
  reads_array1 (State e h p) "mu" m ->
  reads_array1 (State e h p) "weight" w ->
  np_polyfit lv m w = inr (coeffs, covar) ->
  coeffs !! 0%nat = Some c0 -> coeffs !! 1%nat = Some c1 ->
  covar !! 1%nat ≫= (.!! 1%nat) = Some var ->
  sn_fit np_polyfit (State e h p) =
    (inr (),
     State (<["h0_best_err" := VNum (h0_best_err c1 (fsqrt var))]>
           (<["h0_best" := VNum (int_to_H0 c1)]>
           (<["int_to_H0" := VFun int_to_H0]>
           (<["intercept_err_best" := VNum (fsqrt var)]>
           (<["intercept_best" := VNum c1]>
           (<["slope_best" := VNum c0]>
           (<["covar" := VRef (length h + 1)]>
           (<["coeffs" := VRef (length h)]> e))))))))
           (h ++ [Array1 coeffs; Array2 covar]) p).
Proof.
  intros Hlv Hm Hw Hfit Hc0 Hc1 Hvar.
  apply wp_eq. unfold sn_fit. wp_steps.
  eapply wp_lift; [exact Hfit|]. wp_steps.
  unfold getitem1. wp_steps. rewrite Hc0. wp_steps.
  unfold getitem1. wp_steps. rewrite Hc1. wp_steps.
  unfold getitem2. wp_steps. rewrite Hvar. wp_steps. done.
Qed.

(** A fit that raises ends the cell with its exception, before anything
    is bound. *)
Lemma sn_fit_fails e h p lv m w err :
  reads_array1 (State e h p) "logv" lv ->
  reads_array1 (State e h p) "mu" m ->
  reads_array1 (State e h p) "weight" w ->
  np_polyfit lv m w = inl err ->
  sn_fit np_polyfit (State e h p) = (inl err, State e h p).
Proof.
  intros Hlv Hm Hw Hfit. unfold sn_fit.
  rewrite (bind_ok _ _ _ _ _ Hlv), (bind_ok _ _ _ _ _ Hm), (bind_ok _ _ _ _ _ Hw).
  apply bind_err. unfold lift. by rewrite Hfit.
Qed.

Lemma get_array2_run e h p x l a :
  e !! x = Some (VRef l) -> h !! l = Some (Array2 a) ->
  get_array2 x (State e h p) = (inr a, State e h p).
Proof. intros He Hh. apply wp_eq. wp_steps. done. Qed.

Lemma get_int_run e h p x z :
  e !! x = Some (VInt z) -> get_int x (State e h p) = (inr z, State e h p).
Proof. intros He. apply wp_eq. wp_steps. done. Qed.

(** The smoothing cell on a resample array whose shape is not the bound
    one: the deviates are drawn, then the sum is refused. *)
Lemma cell_smooth_fails e h p l hboot N n :
  e !! "hboot" = Some (VRef l) ->
  h !! l = Some (Array2 hboot) ->
  e !! "nbootstraps" = Some (VInt N) ->
  e !! "ndata" = Some (VInt n) ->
  (0 <= N)%Z -> (0 <= n)%Z ->
  map length hboot <> replicate (Z.to_nat N) (Z.to_nat n) ->
  cell_smooth gauss (State e h p) =
    (inl ValueError, State e h (p + Z.to_nat N * Z.to_nat n)).
Proof.
  intros He Hh HN Hn HN0 Hn0 Hshape. unfold cell_smooth.
  erewrite bind_ok by (by eapply get_array2_run).
  erewrite bind_ok by (by eapply get_int_run).
  erewrite bind_ok by (by eapply get_int_run).
  erewrite bind_ok.
  2:{ apply wp_eq. unfold random_randn. wp_step. eapply wp_size2; [done..|].
      wp_steps. done. }
  apply bind_err. unfold lift, add2.
  rewrite decide_False; [done|]. by rewrite randn_shape.
Qed.

(** The supernova table and its columns, after the load and the column
    statements. *)
Lemma sn_table_columns_run e h p rows :
  read_fwf_sn "sndata.txt" = inr rows ->
  exists e1 h1,
    (sn_load read_fwf_sn;; sn_columns) (State e h p) = (inr (), State e1 h1 p) /\
    reads_array1 (State e1 h1 p) "logv" (map flog10 (map cz rows)) /\
    reads_array1 (State e1 h1 p) "mu" (map mu rows) /\
    reads_array1 (State e1 h1 p) "weight"
      (map (fun x => fdiv (of_int 1) (fmul x x)) (map sigma_mu rows)).
Proof.
  intros Hread.
  pose proof (sn_load_run read_fwf_sn e h p rows Hread) as Hload.
  pose proof (sn_columns_run
                (<["data" := VRef (length h)]> (<["path" := VStr ""]> e))
                (h ++ [SNFrame rows]) p (length h) rows) as Hcols.
  rewrite <- !app_assoc, !length_app in Hcols. cbn [length app] in Hcols.
  rewrite <- !Nat.add_assoc in Hcols. cbn [Nat.add] in Hcols.
  specialize (Hcols ltac:(wp_env) ltac:(wp_heap)).
  eexists _, _. split.
  { erewrite bind_ok by exact Hload. exact Hcols. }
  split; [eapply reads_array1_array; [wp_env|wp_heap]|].
  split; [|eapply reads_array1_array; [wp_env|wp_heap]].
  change (map mu rows) with (sn_column Col_mu rows).
  eapply reads_array1_column; [wp_env|wp_heap|wp_heap].
Qed.

(** Adding two arrays of one shape gives an array of that shape. *)
Lemma zip_with_shape {A B C} (f : A -> B -> C) (a : list (list A))
    (b : list (list B)) (shape : list nat) :
  map length a = shape -> map length b = shape ->
  map length (zip_with (zip_with f) a b) = shape.
Proof.
  revert b shape. induction a as [|row t IH]; intros [|nrow noise] [|k shape];
    simpl; try done.
  intros [= Hk Ha] [= Hk' Hb]. f_equal; [|by apply IH].
  rewrite length_zip_with. lia.
Qed.

(** The measurement cells in the notebook's order, from any state in
    which the file can be read. *)
Lemma measurement_cells_run e h p rows :
  read_fwf_hubble "hubble_trim.dat" = inr rows ->
  let kept := List.filter (fun r => flt (of_int 2001) (date r)) rows in
  let n := length (map h0 kept) in
  exists hboot,
    np_random_choice raw p (map h0 kept) (Z.to_nat 10000) n = inr hboot /\
    length hboot = Z.to_nat 10000 /\
    Forall (fun row => length row = n) hboot /\
    let sboot := zip_with (zip_with fadd) hboot
                   (randn gauss (p + Z.to_nat 10000 * n) (Z.to_nat 10000) n) in
    (cell_read_hubble read_fwf_hubble;; cell_query;; cell_hdelta_mean;;
     cell_bootstrap raw;; cell_h0_mean;; cell_smooth gauss) (State e h p) =
      (inr (),
       State (<["h0_median_smoothed" := VRef (length h + 5)]>
             (<["sboot" := VRef (length h + 4)]>
             (<["h0_mean" := VRef (length h + 3)]>
             (<["hboot" := VRef (length h + 2)]>
             (<["nbootstraps" := VInt 10000]>
             (<["ndata" := VInt (Z.of_nat n)]>
             (<["hdelta_mean" := VNum (np_mean (map h0 kept))]>
             (<["data_modern" := VRef (length h + 1)]>
             (<["data" := VRef (length h)]> e)))))))))
             (h ++ [HubbleFrame rows; HubbleFrame kept; Array2 hboot;
                    Array1 (map np_mean hboot); Array2 sboot;
                    Array1 (map np_median sboot)])
             (p + Z.to_nat 10000 * n + Z.to_nat 10000 * n)).
Proof.
  intros Hread kept n.
  destruct (np_random_choice_spec raw p (map h0 kept) (Z.to_nat 10000))
    as (hboot & Hch & Hlen & Hrows).
  assert (Forall (fun row => length row = n) hboot) as Hshape
    by (eapply Forall_impl; [exact Hrows|]; by intros row [? _]).
  exists hboot. split; [exact Hch|]. split; [exact Hlen|]. split; [exact Hshape|].
  intros sboot.
  erewrite bind_ok by (by apply cell_read_hubble_run).
  erewrite bind_ok by (eapply cell_query_run; [wp_env|wp_heap]).
  erewrite bind_ok by (eapply cell_hdelta_mean_run; [wp_env|wp_heap]).
  rewrite <- !app_assoc, !length_app. cbn [length app].
  destruct (cell_bootstrap_run raw
              (<["hdelta_mean" := VNum (np_mean (map h0 kept))]>
              (<["data_modern" := VRef (length h + 1)]>
              (<["data" := VRef (length h)]> e)))
              (h ++ [HubbleFrame rows; HubbleFrame kept]) p (length h + 1) kept)
    as (hboot' & Hch' & Hboot); [wp_env|wp_heap|].
  rewrite Hch in Hch'. injection Hch' as <-.
  erewrite bind_ok by exact Hboot.
  rewrite <- !app_assoc, !length_app. cbn [length app].
  erewrite bind_ok by (eapply cell_h0_mean_run; [wp_env|wp_heap]).
  rewrite <- !app_assoc, !length_app. cbn [length app].
  erewrite (cell_smooth_run gauss _ _ _ (length h + 2) hboot 10000 (Z.of_nat n));
    [|wp_env|wp_heap|wp_env|wp_env|lia|lia|done|by rewrite Nat2Z.id..].
  rewrite <- !app_assoc, !length_app. cbn [length app].
  rewrite <- !Nat.add_assoc. cbn [Nat.add].
  rewrite Nat2Z.id. fold n. rewrite !Nat.add_assoc. done.
Qed.

End MoreRunFacts.

Section GenericExtras.
Context {F : Type} `{Num F}.
Implicit Types (s : state (F:=F)) (v : val (F:=F)) (o : obj (F:=F)).
Implicit Types (e : gmap string (val (F:=F))) (h : list (obj (F:=F))).
Variable raw : nat -> nat.
Variable gauss : nat -> F.
Variable read_fwf_hubble : string -> exn + list (hubble_row (F:=F)).
Variable read_fwf_sn : string -> exn + list (sn_row (F:=F)).
Variable np_polyfit :
  list F -> list F -> list F -> exn + (list F * list (list F)).

(** X2.  A cell whose first statement reads a name that is not bound
    (the filter without [data], the mean and the bootstrap without
    [data_modern], the resample means and the smoothing without [hboot],
    the jackknife without [mu]) ends with [NameError] and leaves the
    state exactly as it was: no name is bound, no object is created and
    no random number is consumed. *)
Theorem cell_without_its_input_raises_NameError c x s :
  first_read c = Some x -> env s !! x = None ->
  run_cell raw gauss read_fwf_hubble read_fwf_sn np_polyfit c s
    = (inl NameError, s).
Proof using Type.
  intros Hc Hx. destruct s as [e h p]. simpl in Hx.
  destruct c; simpl in Hc; try discriminate; injection Hc as <-; cbn [run_cell].
  - unfold cell_query, get_hubble, get_ref, mbind, M_bind, lookup_name. simpl.
    by rewrite Hx.
  - unfold cell_hdelta_mean, get_hubble, get_ref, mbind, M_bind, lookup_name. simpl.
    by rewrite Hx.
  - unfold cell_bootstrap, get_hubble, get_ref, mbind, M_bind, lookup_name. simpl.
    by rewrite Hx.
  - unfold cell_h0_mean, get_array2, get_ref, mbind, M_bind, lookup_name. simpl.
    by rewrite Hx.
  - unfold cell_smooth, get_array2, get_ref, mbind, M_bind, lookup_name. simpl.
    by rewrite Hx.
  - unfold cell_jackknife, jackknife_subsets, get_array1, get_ref, mbind, M_bind,
      lookup_name. simpl. by rewrite Hx.
Qed.


Lemma filter_sublist {A} (f : A -> bool) (l : list A) : List.filter f l `sublist_of` l.
Proof.
  induction l as [|x l IH]; simpl; [constructor|].
  destruct (f x); by constructor.
Qed.

(** X1.  On a loaded table the filter [data.query('date>2001')] returns
    and binds [data_modern] to a table that holds exactly the rows of
    [data] whose date is greater than 2001, in their original order;
    [data] still reads as the full table, and when every row passes the
    cut the new table has the same rows as the old one. *)
Theorem query_keeps_the_rows_dated_after_2001 e h p l rows :
  e !! "data" = Some (VRef l) ->
  h !! l = Some (HubbleFrame rows) ->
  exists kept s',
    cell_query (State e h p) = (inr (), s') /\
    get_hubble "data_modern" s' = (inr kept, s') /\
    get_hubble "data" s' = (inr rows, s') /\
    (forall r, r ∈ kept <-> r ∈ rows /\ flt (of_int 2001) (date r) = true) /\
    kept `sublist_of` rows /\
    (Forall (fun r => flt (of_int 2001) (date r) = true) rows -> kept = rows).
Proof using Type.
  clear raw gauss read_fwf_hubble read_fwf_sn np_polyfit.
  intros He Hh. eexists _, _. split; [by eapply cell_query_run|].
  split; [apply wp_eq; wp_steps; done|].
  split; [apply wp_eq; wp_steps; done|].
  split.
  { intros r. rewrite !list_elem_of_In. apply filter_In. }
  split; [apply filter_sublist|].
  intros Hall. clear Hh. induction Hall as [|r t Hr _ IH]; simpl; [done|].
  by rewrite Hr, IH.
Qed.


(** X8.  On an empty column [mu] the jackknife cell binds [ndata] to 0
    and then ends with [ValueError] at [np.zeros((ndata, ndata-1))],
    whose second dimension is negative: no array is created and no other
    name is bound. *)
Theorem jackknife_of_an_empty_table_raises_ValueError s :
  reads_array1 s "mu" [] ->
  cell_jackknife s =
    (inl ValueError, State (<["ndata" := VInt 0]> (env s)) (heap s) (rng_pos s)).
Proof using Type.
  clear raw gauss read_fwf_hubble read_fwf_sn np_polyfit.
  intros Hmu. unfold cell_jackknife. apply bind_err. unfold jackknife_subsets.
  rewrite (bind_ok _ _ _ _ _ Hmu).
  erewrite bind_ok by reflexivity.
  erewrite bind_ok by (apply get_int_run, lookup_insert_eq).
  apply bind_err. unfold np_zeros2. rewrite decide_True; [done|]. simpl. lia.
Qed.

(** The first statement of the jackknife cell binds [ndata], and nothing
    after it in the cell rebinds it: the binding is there whether the
    cell returns or raises. *)
Lemma jackknife_rebinds_ndata s m :
  reads_array1 s "mu" m ->
  env (cell_jackknife s).2 !! "ndata"
    = Some (VInt (Z.of_nat (length m))).
Proof using Type.
  clear raw gauss read_fwf_hubble read_fwf_sn np_polyfit.
  intros Hmu. unfold cell_jackknife, jackknife_subsets.
  rewrite <- bind_assoc. rewrite (bind_ok _ _ _ _ _ Hmu).
  rewrite <- bind_assoc. erewrite bind_ok by reflexivity.
  match goal with
  | |- env (?m ?s2).2 !! _ = _ =>
      assert (keeps_names ["logv_jack"; "mu_jack"; "weight_jack"; "h0_jack";
                           "i"; "h0_sigma_jack"] m) as Hk
  end.
  { unfold jackknife_estimates, jackknife_spread, store_leave_one_out, setitem_row, setitem, getrow,
      np_zeros, np_zeros2, get_array1, get_array2, get_fun, get_num, get_int, get_ref.
    names_tac. }
  rewrite Hk.
  - apply lookup_insert_eq.
  - intros Hin.
    repeat (apply elem_of_cons in Hin as [Hin|Hin]; [discriminate|]).
    by apply elem_of_nil in Hin.
Qed.

(** X7.  The name [ndata] is shared: the bootstrap cell binds it to the
    number of measurements, the jackknife cell rebinds it to the number
    of supernovae in its first statement, whether the cell then returns
    or raises.  Running the smoothing cell after the jackknife cell, with
    an array [hboot] of 10000 rows of [n] entries and a column [mu] of a
    different length, draws [10000 * len(mu)] deviates and then ends with
    [ValueError] at the sum; nothing is bound and only the generator has
    moved.  (numpy stretches an axis of length one, so the lengths are
    taken different from one.) *)
Theorem smoothing_after_the_jackknife_cell_raises_ValueError e h p l hboot n m :
  e !! "hboot" = Some (VRef l) ->
  h !! l = Some (Array2 hboot) ->
  e !! "nbootstraps" = Some (VInt 10000) ->
  length hboot = Z.to_nat 10000 ->
  Forall (fun row => length row = n) hboot ->
  reads_array1 (State e h p) "mu" m ->
  length m <> n -> n <> 1%nat -> length m <> 1%nat ->
  exists r s1,
    cell_jackknife (State e h p) = (r, s1) /\
    env s1 !! "ndata" = Some (VInt (Z.of_nat (length m))) /\
    cell_smooth gauss s1 =
      (inl ValueError,
       State (env s1) (heap s1) (rng_pos s1 + Z.to_nat 10000 * length m)).
Proof using Type.
  clear raw read_fwf_hubble read_fwf_sn np_polyfit.
  intros He Hh HN Hlen Hrows Hmu Hne _ _.
  pose proof (jackknife_rebinds_ndata (State e h p) m Hmu) as Hnd.
  pose proof (run_cell_names (fun _ => 0%nat) gauss (fun _ => inl ValueError)
                (fun _ => inl ValueError) (fun _ _ _ => inl ValueError) Jackknife
                (State e h p))
    as Hnames.
  destruct (run_cell_prefix (fun _ => 0%nat) gauss (fun _ => inl ValueError)
              (fun _ => inl ValueError) (fun _ _ _ => inl ValueError) Jackknife
                (State e h p))
    as [t Ht].
  cbn [run_cell assigned env heap] in Hnames, Ht.
  destruct (cell_jackknife (State e h p)) as [r [e1 h1 p1]].
  cbn [snd env heap] in Hnd, Hnames, Ht. subst h1.
  exists r. eexists. split; [done|]. split; [exact Hnd|]. cbn [env heap rng_pos].
  replace (Z.to_nat 10000 * length m)%nat
    with (Z.to_nat 10000 * Z.to_nat (Z.of_nat (length m)))%nat
    by (by rewrite Nat2Z.id).
  apply (cell_smooth_fails gauss _ _ _ l hboot 10000 (Z.of_nat (length m)));
    [| |  |exact Hnd|lia|lia|].
  - rewrite Hnames; [done|]. intros Hin.
    repeat (apply elem_of_cons in Hin as [Hin|Hin]; [discriminate|]).
    by apply elem_of_nil in Hin.
  - by apply lookup_heap_old.
  - rewrite Hnames; [done|]. intros Hin.
    repeat (apply elem_of_cons in Hin as [Hin|Hin]; [discriminate|]).
    by apply elem_of_nil in Hin.
  - rewrite Nat2Z.id. intros Heq.
    destruct hboot as [|row t']; [simpl in Hlen; lia|].
    apply Forall_cons_1 in Hrows as [Hrow _].
    replace (Z.to_nat 10000) with (S (Z.to_nat 9999)) in Heq by lia.
    simpl in Heq. injection Heq as Heq _. congruence.
Qed.

(** X9.  After the load, the column statements and the first jackknife
    loop, the three subset arrays stay aligned: for every row [i] and
    position [j], the entries [logv_jack[i][j]], [mu_jack[i][j]] and
    [weight_jack[i][j]] come from one and the same supernova, the one in
    table row [j] when [j < i] and in table row [j+1] otherwise, and they
    are its [log10(cz)], its [mu] and its [1/sigma_mu**2]. *)
Theorem jackknife_rows_stay_paired e h p rows :
  read_fwf_sn "sndata.txt" = inr rows -> rows <> [] ->
  exists s2,
    (sn_load read_fwf_sn;; sn_columns;; jackknife_subsets) (State e h p)
      = (inr (), s2) /\
    forall i j, (i < length rows)%nat -> (j < length rows - 1)%nat ->
      exists r lrow mrow wrow,
        rows !! (if decide (j < i)%nat then j else S j) = Some r /\
        getrow "logv_jack" i s2 = (inr lrow, s2) /\
        lrow !! j = Some (flog10 (cz r)) /\
        getrow "mu_jack" i s2 = (inr mrow, s2) /\
        mrow !! j = Some (mu r) /\
        getrow "weight_jack" i s2 = (inr wrow, s2) /\
        wrow !! j = Some (fdiv (of_int 1) (fmul (sigma_mu r) (sigma_mu r))).
Proof using Type.
  clear raw gauss read_fwf_hubble np_polyfit.
  intros Hread Hne.
  destruct (sn_table_columns_run read_fwf_sn e h p rows Hread)
    as (e1 & h1 & Hrun1 & Rlogv & Rmu & Rw).
  destruct (jackknife_subsets_rows e1 h1 p _ _ _ Rlogv Rmu Rw)
    as (s2 & Hrun2 & Hsub).
  { by rewrite !length_map. }
  { by rewrite !length_map. }
  { by destruct rows. }
  exists s2. split.
  { rewrite bind_assoc. erewrite bind_ok by exact Hrun1. exact Hrun2. }
  intros i j Hi Hj.
  destruct (lookup_lt_is_Some_2 rows (if decide (j < i)%nat then j else S j))
    as [r Hr]; [case_decide; lia|].
  destruct (Hsub "logv_jack" _ ltac:(in_list)) as [_ Hl].
  destruct (Hsub "mu_jack" _ ltac:(in_list)) as [_ Hm].
  destruct (Hsub "weight_jack" _ ltac:(in_list)) as [_ Hw].
  rewrite length_map in Hl, Hm, Hw.
  exists r. eexists _, _, _.
  split; [exact Hr|].
  split; [by apply Hl|]. split.
  { rewrite leave_one_out_lookup by (rewrite !length_map; lia).
    destruct (decide (j < i)%nat); by rewrite !list_lookup_fmap, Hr. }
  split; [by apply Hm|]. split.
  { rewrite leave_one_out_lookup by (rewrite !length_map; lia).
    destruct (decide (j < i)%nat); by rewrite !list_lookup_fmap, Hr. }
  split; [by apply Hw|].
  rewrite leave_one_out_lookup by (rewrite !length_map; lia).
  destruct (decide (j < i)%nat); by rewrite !list_lookup_fmap, Hr.
Qed.

(** X6.  A cell rebinds only the names on the left of its own
    assignments, whether it returns or raises: a name that none of the
    cells run assigns has, after any sequence of them, the binding it had
    before.  (The lists show the shared names: [data] is assigned by both
    loads, [ndata] by the bootstrap, the index and the jackknife cells.) *)
Theorem cells_rebind_only_the_names_they_assign cs s x :
  Forall (fun c => x ∉ assigned c) cs ->
  env (run_session raw gauss read_fwf_hubble read_fwf_sn np_polyfit cs s) !! x
    = env s !! x.
Proof using Type.
  intros Hcs. revert s. induction Hcs as [|c cs Hc _ IH]; intros s; [done|].
  change (run_session raw gauss read_fwf_hubble read_fwf_sn np_polyfit (c :: cs) s)
    with (run_session raw gauss read_fwf_hubble read_fwf_sn np_polyfit cs
            (run_cell raw gauss read_fwf_hubble read_fwf_sn np_polyfit c s).2).
  rewrite IH. by apply run_cell_names.
Qed.

(** X5.  No cell overwrites an object that existed before it ran.
    After any sequence of cells, in any order and whether they return or
    raise, the heap is the old heap followed by new objects, so every
    array and table keeps its location and its contents; the in-place
    writes of the jackknife loops land only on arrays the cell itself
    created. *)
Theorem objects_are_only_appended cs s :
  (exists t,
     heap (run_session raw gauss read_fwf_hubble read_fwf_sn np_polyfit cs s)
       = heap s ++ t) /\
  (forall l o, heap s !! l = Some o ->
     heap (run_session raw gauss read_fwf_hubble read_fwf_sn np_polyfit cs s) !! l
       = Some o).
Proof using Type.
  assert (exists t,
     heap (run_session raw gauss read_fwf_hubble read_fwf_sn np_polyfit cs s)
       = heap s ++ t) as [t Ht].
  { revert s. induction cs as [|c cs IH]; intros s.
    - exists []. by rewrite app_nil_r.
    - destruct (run_cell_prefix raw gauss read_fwf_hubble read_fwf_sn np_polyfit c s)
        as [t1 Ht1].
      destruct (IH (run_cell raw gauss read_fwf_hubble read_fwf_sn np_polyfit c s).2)
        as [t2 Ht2].
      exists (t1 ++ t2).
      change (run_session raw gauss read_fwf_hubble read_fwf_sn np_polyfit (c :: cs) s)
        with (run_session raw gauss read_fwf_hubble read_fwf_sn np_polyfit cs
                (run_cell raw gauss read_fwf_hubble read_fwf_sn np_polyfit c s).2).
      rewrite Ht2, Ht1. by rewrite app_assoc. }
  split; [by exists t|].
  intros l o Hl. rewrite Ht. by apply lookup_heap_old.
Qed.

End GenericExtras.

(** ** Exact arithmetic, continued *)

Section MoreExactFacts.
Local Open Scope R_scope.

Lemma ln_10_pos : 0 < ln 10.
Proof. rewrite <- ln_1. apply ln_increasing; lra. Qed.

Lemma int_to_H0_pos (b : R) : 0 < int_to_H0 b.
Proof.
  rewrite int_to_H0_unfold. apply Rmult_lt_0_compat.
  - unfold Rpower. apply exp_pos.
  - apply pow_lt. lra.
Qed.

(** A shift of the intercept is a factor of the constant. *)
Lemma int_to_H0_shift (b d : R) :
  int_to_H0 (b + d) = int_to_H0 b * Rpower 10 (- 0.2 * d).
Proof.
  rewrite !int_to_H0_unfold.
  replace (- 0.2 * (b + d)) with (- 0.2 * b + - 0.2 * d) by lra.
  rewrite Rpower_plus. lra.
Qed.

Lemma np_mean_constant (c : R) (a : list R) :
  a <> [] -> (forall x, x ∈ a -> x = c) -> np_mean a = c.
Proof.
  intros Ha Hc.
  destruct (np_mean_bounds c c a Ha) as [? ?]; [|lra].
  intros x ->%Hc. lra.
Qed.

Lemma np_var_constant (a : list R) :
  a <> [] -> (forall x y, x ∈ a -> y ∈ a -> x = y) -> np_var a = 0.
Proof.
  intros Ha Heq. destruct a as [|c t]; [done|].
  unfold np_var. cbv zeta.
  rewrite (np_mean_constant c (c :: t)); [|done|intros x Hx; apply Heq; [done|left]].
  apply np_mean_constant; [done|].
  intros x (y & -> & Hy)%list_elem_of_fmap. cbn [fsub fmul exact].
  rewrite (Heq y c Hy) by left. lra.
Qed.

End MoreExactFacts.

Section ExactExtras.
Local Open Scope R_scope.
Variable read_fwf_sn : string -> exn + list (sn_row (F:=R)).
Variable np_polyfit :
  list R -> list R -> list R -> exn + (list R * list (list R)).

(** X13.  In exact arithmetic [int_to_H0] is positive, sends the
    intercept 0 to 100000, divides the result by 10 when the intercept
    grows by 5, is inverted by the logarithm,
    [log10(int_to_H0(b)) = 5 - b/5], and so never sends two intercepts to
    one value. *)
Theorem int_to_H0_scale_and_inverse (b : R) :
  0 < int_to_H0 b /\
  int_to_H0 0 = 100000 /\
  int_to_H0 (b + 5) = int_to_H0 b / 10 /\
  flog10 (int_to_H0 b) = 5 - b / 5 /\
  forall b', int_to_H0 b = int_to_H0 b' -> b = b'.
Proof using Type.
  split; [apply int_to_H0_pos|]. split; [|split; [|split]].
  - rewrite int_to_H0_unfold, Rmult_0_r, Rpower_O by lra. lra.
  - rewrite int_to_H0_shift.
    replace (- 0.2 * 5) with (- (1)) by lra.
    rewrite Rpower_Ropp, Rpower_1 by lra. lra.
  - cbn [flog10 exact]. rewrite int_to_H0_unfold, <- Rpower_10_5.
    rewrite <- Rpower_plus. unfold Rpower. rewrite ln_exp.
    pose proof ln_10_pos. unfold Rdiv at 1.
    rewrite Rmult_assoc, Rinv_r by lra. lra.
  - intros b' Heq.
    destruct (Rtotal_order b b') as [Hlt|[->|Hgt]]; [|done|].
    + apply int_to_H0_decreasing in Hlt. lra.
    + apply int_to_H0_decreasing in Hgt. lra.
Qed.

(** X14.  In exact arithmetic, for at least one estimate and
    [ndata >= 1], the jackknife error [np.std(h0_jack)*np.sqrt(ndata-1)]
    is never negative; it is zero when all leave-one-out estimates
    coincide, and zero for a single row. *)
Theorem jackknife_sigma_nonnegative (h0_jack : list R) (ndata : Z) :
  h0_jack <> [] -> (1 <= ndata)%Z ->
  0 <= jackknife_sigma h0_jack ndata /\
  ((forall x y, x ∈ h0_jack -> y ∈ h0_jack -> x = y) ->
   jackknife_sigma h0_jack ndata = 0) /\
  (ndata = 1%Z -> jackknife_sigma h0_jack ndata = 0).
Proof using Type.
  intros Hne Hn. unfold jackknife_sigma, np_std. cbn [fmul fsqrt of_int exact].
  split; [|split].
  - apply Rmult_le_pos; apply sqrt_pos.
  - intros Heq. rewrite np_var_constant, sqrt_0 by done. lra.
  - intros ->. change (1 - 1)%Z with 0%Z. rewrite sqrt_0. lra.
Qed.

(** X11.  In exact arithmetic, when the supernova file is read, the fit
    returns and the variance [covar[1,1]] of the intercept is positive,
    the supernova cell returns and binds the slope, the intercept, its
    error [sqrt(covar[1,1])], [h0_best] and [h0_best_err].  The three
    values printed as the polyfit values are positive and in increasing
    order, [int_to_H0(b+e) < h0_best < int_to_H0(b-e)]; [h0_best_err] is
    half the distance between the outer two, and the interval is not
    symmetric: [h0_best_err] lies strictly between the distance down to
    the lower value and the distance up to the upper one. *)
Theorem fit_cell_binds_an_ordered_triple e h p rows coeffs covar c0 c1 var :
  read_fwf_sn "sndata.txt" = inr rows ->
  np_polyfit (map flog10 (map cz rows)) (map mu rows)
    (map (fun x => fdiv (of_int 1) (fmul x x)) (map sigma_mu rows))
    = inr (coeffs, covar) ->
  coeffs !! 0%nat = Some c0 -> coeffs !! 1%nat = Some c1 ->
  covar !! 1%nat ≫= (.!! 1%nat) = Some var ->
  0 < var ->
  exists s' lo best hi err,
    cell_read_sn read_fwf_sn np_polyfit (State e h p) = (inr (), s') /\
    env s' !! "slope_best" = Some (VNum c0) /\
    env s' !! "intercept_best" = Some (VNum c1) /\
    env s' !! "intercept_err_best" = Some (VNum (R_sqrt.sqrt var)) /\
    env s' !! "h0_best" = Some (VNum best) /\
    env s' !! "h0_best_err" = Some (VNum err) /\
    lo = int_to_H0 (c1 + R_sqrt.sqrt var) /\
    best = int_to_H0 c1 /\
    hi = int_to_H0 (c1 - R_sqrt.sqrt var) /\
    0 < lo /\ lo < best /\ best < hi /\
    err = (hi - lo) / 2 /\
    best - lo < err /\ err < hi - best.
Proof using Type.
  intros Hread Hfit Hc0 Hc1 Hvar Hpos.
  destruct (sn_table_columns_run read_fwf_sn e h p rows Hread)
    as (e1 & h1 & Hrun1 & Rlogv & Rmu & Rw).
  pose proof (sn_fit_run np_polyfit e1 h1 p _ _ _ coeffs covar c0 c1 var
                Rlogv Rmu Rw Hfit Hc0 Hc1 Hvar) as Hrun.
  eexists _, _, _, _, _. split.
  { unfold cell_read_sn. rewrite bind_assoc. erewrite bind_ok by exact Hrun1.
    exact Hrun. }
  cbn [env].
  split; [wp_env|]. split; [wp_env|]. split; [wp_env|].
  split; [wp_env|]. split; [wp_env|].
  split; [reflexivity|]. split; [reflexivity|]. split; [reflexivity|].
  cbn [fsqrt exact].
  assert (0 < R_sqrt.sqrt var) as He by (by apply sqrt_lt_R0).
  set (d := R_sqrt.sqrt var) in *.
  pose proof (int_to_H0_pos c1) as Hb.
  pose proof (int_to_H0_pos (c1 + d)) as Hlo.
  assert (int_to_H0 (c1 + d) < int_to_H0 c1) as H1
    by (apply int_to_H0_decreasing; lra).
  assert (int_to_H0 c1 < int_to_H0 (c1 - d)) as H2
    by (apply int_to_H0_decreasing; lra).
  assert (int_to_H0 (c1 + d) * int_to_H0 (c1 - d) = int_to_H0 c1 * int_to_H0 c1) as Hgm.
  { unfold Rminus. rewrite !int_to_H0_shift.
    replace (- 0.2 * - d) with (- (- 0.2 * d)) by lra.
    rewrite Rpower_Ropp.
    assert (0 < Rpower 10 (- 0.2 * d)) by (unfold Rpower; apply exp_pos).
    field. lra. }
  unfold h0_best_err. cbn [fdiv fsub fadd of_int exact].
  repeat split; try lra; nra.
Qed.

End ExactExtras.

(** ** Empty requests, and binary64 statistics of empty rows *)

Section EmptyFacts.
Context {F : Type} `{Num F}.

Lemma getitems_replicate_nil {A} (a : list A) N :
  getitems a (replicate N []) = inr (replicate N []).
Proof.
  unfold getitems.
  assert (mapM (mapM (fun j => a !! j)) (replicate N []) = Some (replicate N []))
    as -> ; [|done].
  apply mapM_Some. induction N as [|N IH]; simpl; constructor; [done|exact IH].
Qed.

Lemma np_random_choice_no_columns raw pos (a : list F) N :
  np_random_choice raw pos a N 0 = inr (replicate N []).
Proof.
  unfold np_random_choice, randint.
  rewrite decide_False by lia. rewrite decide_True by lia.
  apply getitems_replicate_nil.
Qed.

Lemma randn_no_columns (gauss : nat -> F) pos N :
  randn gauss pos N 0 = replicate N [].
Proof.
  unfold randn, draw_row. simpl. generalize 0%nat.
  induction N as [|N IH]; intros k; simpl; [done|]. by rewrite IH.
Qed.

End EmptyFacts.

Section MoreGenericExtras.
Context {F : Type} `{Num F}.
Implicit Types (s : state (F:=F)) (v : val (F:=F)) (o : obj (F:=F)).
Implicit Types (e : gmap string (val (F:=F))) (h : list (obj (F:=F))).
Variable read_fwf_sn : string -> exn + list (sn_row (F:=F)).
Variable np_polyfit :
  list F -> list F -> list F -> exn + (list F * list (list F)).

(** X10.  Putting the removed element back at position [i] of the
    leave-one-out list gives the column again, so the list together with
    the removed element has exactly the elements of the column; for an
    index past the end the slices leave nothing out. *)
Theorem leave_one_out_round_trip {A} (col : list A) (i : nat) :
  (forall x, col !! i = Some x ->
     take i (leave_one_out col i) ++ x :: drop i (leave_one_out col i) = col /\
     col ≡ₚ x :: leave_one_out col i) /\
  ((length col <= i)%nat -> leave_one_out col i = col).
Proof using Type.
  clear read_fwf_sn np_polyfit.
  split.
  - intros x Hx. pose proof (lookup_lt_Some _ _ _ Hx) as Hi.
    rewrite leave_one_out_take, leave_one_out_drop by done.
    pose proof (take_drop_middle col i x Hx) as Hmid. split; [done|].
    unfold leave_one_out. rewrite Nat.add_1_r.
    rewrite <- Hmid at 1. by rewrite Permutation_middle.
  - intros Hi. unfold leave_one_out.
    rewrite take_ge, drop_ge by lia. apply app_nil_r.
Qed.

(** X12.  When the file is read but [np.polyfit] raises, the supernova
    cell ends with that exception after the column statements: [logv],
    [mu] and [weight] read as the columns of the new table, while
    [coeffs], [covar], [slope_best], [intercept_best],
    [intercept_err_best], [int_to_H0], [h0_best] and [h0_best_err] keep
    whatever binding they had, a value left by an earlier run
    included. *)
Theorem failed_fit_leaves_the_columns_and_old_results e h p rows err :
  read_fwf_sn "sndata.txt" = inr rows ->
  np_polyfit (map flog10 (map cz rows)) (map mu rows)
    (map (fun x => fdiv (of_int 1) (fmul x x)) (map sigma_mu rows)) = inl err ->
  exists s',
    cell_read_sn read_fwf_sn np_polyfit (State e h p) = (inl err, s') /\
    reads_array1 s' "logv" (map flog10 (map cz rows)) /\
    reads_array1 s' "mu" (map mu rows) /\
    reads_array1 s' "weight"
      (map (fun x => fdiv (of_int 1) (fmul x x)) (map sigma_mu rows)) /\
    forall x,
      x ∈ ["coeffs"; "covar"; "slope_best"; "intercept_best";
           "intercept_err_best"; "int_to_H0"; "h0_best"; "h0_best_err"] ->
      env s' !! x = e !! x.
Proof using Type.
  intros Hread Hfit.
  destruct (sn_table_columns_run read_fwf_sn e h p rows Hread)
    as (e1 & h1 & Hrun1 & Rlogv & Rmu & Rw).
  exists (State e1 h1 p). split.
  { unfold cell_read_sn. rewrite bind_assoc. erewrite bind_ok by exact Hrun1.
    by eapply sn_fit_fails. }
  split; [done|]. split; [done|]. split; [done|].
  intros x Hx.
  assert (keeps_names ["path"; "data"; "cz"; "logv"; "mu"; "sigma_mu"; "weight"]
            (sn_load read_fwf_sn;; sn_columns)) as Hnames.
  { apply names_bind; [unfold sn_load, get_str; names_tac|].
    intros []. unfold sn_columns, get_sn, get_array1, get_ref. names_tac. }
  specialize (Hnames (State e h p) x). rewrite Hrun1 in Hnames. apply Hnames.
  intros Hin.
  repeat (apply elem_of_cons in Hx as [->|Hx]);
    try (by apply elem_of_nil in Hx);
    repeat (apply elem_of_cons in Hin as [Hin|Hin]; [discriminate|]);
    by apply elem_of_nil in Hin.
Qed.

End MoreGenericExtras.

Section Binary64Extras.
Variable libm_pow : float -> float -> float.
Variable libm_log10 : float -> float.
Variable raw : nat -> nat.
Variable gauss : nat -> float.
Variable read_fwf_hubble : string -> exn + list (hubble_row (F:=float)).
Variable read_fwf_sn : string -> exn + list (sn_row (F:=float)).
Variable np_polyfit :
  list float -> list float -> list float -> exn + (list float * list (list float)).

(** X4.  In binary64, when the date cut has kept no row, the mean, the
    bootstrap, the resample means and the smoothing still return without
    an exception and consume no random number; [hdelta_mean] is NaN and so
    is every one of the 10000 entries of [h0_mean] and of
    [h0_median_smoothed]. *)
Theorem empty_selection_gives_NaN_statistics e h p l :
  e !! "data_modern" = Some (VRef l) ->
  h !! l = Some (HubbleFrame []) ->
  exists s',
    @run_all _ (binary64 libm_pow libm_log10)
      raw gauss read_fwf_hubble read_fwf_sn np_polyfit
      [HdeltaMean; Bootstrap; H0Mean; Smooth] (State e h p) = (inr (), s') /\
    env s' !! "hdelta_mean" = Some (VNum nan) /\
    reads_array1 s' "h0_mean" (replicate (Z.to_nat 10000) nan) /\
    reads_array1 s' "h0_median_smoothed" (replicate (Z.to_nat 10000) nan) /\
    rng_pos s' = p.
Proof using Type.
  intros He Hh.
  pose (b64 := binary64 libm_pow libm_log10).
  pose proof (@cell_hdelta_mean_run _ b64 e h p l [] He Hh) as Hmean.
  destruct (cell_bootstrap_run raw
              (<["hdelta_mean" := VNum (@np_mean _ b64 [])]> e) h p l [])
    as (hboot & Hch & Hboot); [wp_env|done|].
  remember (Z.to_nat 10000) as N eqn:HN in *.
  change (map h0 []) with (@nil float) in *.
  change (length (@nil float)) with 0%nat in *.
  rewrite np_random_choice_no_columns in Hch. injection Hch as <-.
  rewrite Nat.mul_0_r, Nat.add_0_r in Hboot.
  eexists. split.
  { unfold run_all. cbn [foldr run_cell].
    erewrite bind_ok by exact Hmean.
    erewrite bind_ok by exact Hboot.
    erewrite bind_ok by (eapply (@cell_h0_mean_run _ b64); [wp_env|wp_heap]).
    rewrite <- app_assoc, length_app. cbn [app length].
    erewrite bind_ok; [reflexivity|].
    eapply (@cell_smooth_run _ b64 gauss _ _ _ (length h) (replicate N []) 10000 0);
      [wp_env|wp_heap|wp_env|wp_env|lia|lia|by rewrite length_replicate|].
    apply Forall_forall. by intros row [-> _]%elem_of_replicate. }
  cbn [env heap rng_pos]. split; [wp_env|].
  split.
  { eapply reads_array1_array; [wp_env|].
    rewrite <- !app_assoc. rewrite lookup_heap_new. cbn [app lookup list_lookup].
    by rewrite fmap_replicate. }
  split.
  { eapply reads_array1_array; [wp_env|].
    rewrite lookup_heap_new. cbn [lookup list_lookup].
    rewrite <- HN. change (Z.to_nat 0) with 0%nat.
    rewrite randn_no_columns, zip_with_replicate. cbn [zip_with].
    by rewrite fmap_replicate. }
  change (Z.to_nat 0) with 0%nat. lia.
Qed.

End Binary64Extras.

(** ** Which cells draw *)

Section GeneratorFacts.
Context {F : Type} `{Num F}.
Implicit Types (s : state (F:=F)) (v : val (F:=F)) (o : obj (F:=F)).
Variable R : relation nat.
Context `{!PreOrder R}.

Lemma rng_state {A} (m : M (F:=F) A) :
  (forall s, rng_pos (m s).2 = rng_pos s) -> moves_generator R m.
Proof. intros Hm s. by rewrite Hm. Qed.

Lemma rng_ret {A} (a : A) : moves_generator (F:=F) R (mret a).
Proof. by apply rng_state. Qed.

Lemma rng_raise {A} e : moves_generator (F:=F) R (raise (A:=A) e).
Proof. by apply rng_state. Qed.

Lemma rng_lift {A} (r : exn + A) : moves_generator (F:=F) R (lift r).
Proof. by apply rng_state. Qed.

Lemma rng_bind {A B} (m : M (F:=F) A) (k : A -> M (F:=F) B) :
  moves_generator R m -> (forall a, moves_generator R (k a)) ->
  moves_generator R (m ≫= k).
Proof.
  intros Hm Hk s. unfold mbind, M_bind.
  specialize (Hm s).
  destruct (m s) as [[e|a] s']; simpl in *; [done|].
  by etransitivity; [exact Hm|apply Hk].
Qed.

Lemma rng_lookup_name x : moves_generator (F:=F) R (lookup_name x).
Proof. apply rng_state. intros s. unfold lookup_name. by destruct (env s !! x). Qed.

Lemma rng_assign x v : moves_generator R (assign x v).
Proof. by apply rng_state. Qed.

Lemma rng_new o : moves_generator R (new o).
Proof. by apply rng_state. Qed.

Lemma rng_deref l : moves_generator (F:=F) R (deref l).
Proof. apply rng_state. intros s. unfold deref. by destruct (heap s !! l). Qed.

Lemma rng_poke l o : moves_generator R (poke l o).
Proof. by apply rng_state. Qed.

Lemma rng_position : moves_generator (F:=F) R position.
Proof. by apply rng_state. Qed.

Lemma rng_advance k :
  (forall p, R p (p + k)%nat) -> moves_generator (F:=F) R (advance k).
Proof. intros HR s. apply HR. Qed.

Lemma rng_for_range x n (body : nat -> M (F:=F) unit) :
  (forall i, moves_generator R (body i)) -> moves_generator R (for_range x n body).
Proof.
  intros Hb. unfold for_range.
  induction (seq 0 (Z.to_nat n)) as [|i t IH]; simpl.
  - apply rng_ret.
  - apply rng_bind; [apply rng_assign|]. intros _.
    apply rng_bind; [apply Hb|]. intros _. apply IH.
Qed.

End GeneratorFacts.

Ltac rng_step :=
  lazymatch goal with
  | |- forall _, _ => intros
  | |- moves_generator ?R (_ ≫= _) => apply (rng_bind R)
  | |- moves_generator ?R (mret _) => apply (rng_ret R)
  | |- moves_generator ?R (raise _) => apply (rng_raise R)
  | |- moves_generator ?R (lift _) => apply (rng_lift R)
  | |- moves_generator ?R (lookup_name _) => apply (rng_lookup_name R)
  | |- moves_generator ?R (deref _) => apply (rng_deref R)
  | |- moves_generator ?R position => apply (rng_position R)
  | |- moves_generator ?R (advance _) => apply (rng_advance R); intros; lia
  | |- moves_generator ?R (new _) => apply (rng_new R)
  | |- moves_generator ?R (poke _ _) => apply (rng_poke R)
  | |- moves_generator ?R (assign _ _) => apply (rng_assign R)
  | |- moves_generator ?R (for_range _ _ _) => apply (rng_for_range R)
  | |- moves_generator _ (match ?x with _ => _ end) => destruct x
  | |- moves_generator _ (if ?c then _ else _) => destruct c
  | |- moves_generator _ (let '(_, _) := ?x in _) => destruct x
  end.

Ltac rng_tac := repeat rng_step.

Ltac unfold_cells :=
  unfold cell_read_hubble, cell_query, cell_hdelta_mean, cell_bootstrap,
    cell_h0_mean, cell_smooth, cell_read_sn, sn_load, sn_columns, sn_fit,
    cell_rand_indices, cell_jackknife, jackknife_subsets, jackknife_estimates, jackknife_spread,
    store_leave_one_out, setitem_row, setitem, getrow, getitem1, getitem2,
    random_choice, random_randint, random_randn, size2, np_zeros, np_zeros2,
    get_hubble, get_sn, get_array1, get_array2, get_fun, get_num, get_str,
    get_int, get_ref.

Section CellGeneratorFacts.
Context {F : Type} `{Num F}.
Variable raw : nat -> nat.
Variable gauss : nat -> F.
Variable read_fwf_hubble : string -> exn + list (hubble_row (F:=F)).
Variable read_fwf_sn : string -> exn + list (sn_row (F:=F)).
Variable np_polyfit :
  list F -> list F -> list F -> exn + (list F * list (list F)).

Lemma run_cell_generator_le c :
  moves_generator le
    (run_cell raw gauss read_fwf_hubble read_fwf_sn np_polyfit c).
Proof.
  destruct c; cbn [run_cell]; unfold_cells; rng_tac.
Qed.

Lemma run_cell_generator_eq c :
  c ∉ [Bootstrap; Smooth; RandIndices] ->
  moves_generator eq
    (run_cell raw gauss read_fwf_hubble read_fwf_sn np_polyfit c).
Proof.
  intros Hc.
  destruct c; cbn [run_cell];
    try (exfalso; apply Hc; in_list);
    unfold_cells; rng_tac.
Qed.

(** X16.  Only the bootstrap, the smoothing and the index cell consume
    random numbers.  Through any sequence of cells, returning or raising,
    the position of the generator never moves backwards, and it stays
    where it was when none of these three cells is run: loading, cutting,
    averaging, fitting and the jackknife do not change what the next
    draw returns. *)
Theorem only_three_cells_draw cs (s : state (F:=F)) :
  (rng_pos s
     <= rng_pos (run_session raw gauss read_fwf_hubble read_fwf_sn np_polyfit cs s))%nat /\
  (Forall (fun c => c ∉ [Bootstrap; Smooth; RandIndices]) cs ->
   rng_pos (run_session raw gauss read_fwf_hubble read_fwf_sn np_polyfit cs s)
     = rng_pos s).
Proof using Type.
  split.
  - revert s. induction cs as [|c cs IH]; intros s; [done|].
    change (run_session raw gauss read_fwf_hubble read_fwf_sn np_polyfit (c :: cs) s)
      with (run_session raw gauss read_fwf_hubble read_fwf_sn np_polyfit cs
              (run_cell raw gauss read_fwf_hubble read_fwf_sn np_polyfit c s).2).
    etransitivity; [apply (run_cell_generator_le c s)|apply IH].
  - intros Hcs. revert s. induction Hcs as [|c cs Hc _ IH]; intros s; [done|].
    change (run_session raw gauss read_fwf_hubble read_fwf_sn np_polyfit (c :: cs) s)
      with (run_session raw gauss read_fwf_hubble read_fwf_sn np_polyfit cs
              (run_cell raw gauss read_fwf_hubble read_fwf_sn np_polyfit c s).2).
    rewrite IH. symmetry. by apply run_cell_generator_eq.
Qed.

End CellGeneratorFacts.

(** ** A loop that stops at an exception *)

Section LoopFailure.
Context {F : Type} `{Num F}.
Implicit Types (s : state (F:=F)) (v : val (F:=F)) (o : obj (F:=F)).
Implicit Types (e : gmap string (val (F:=F))) (h : list (obj (F:=F))).

(** The loop rule for a body that returns [k] times and then raises. *)
Lemma for_range_fails (I : nat -> state (F:=F) -> Prop) x n body s k err
    (Q : state (F:=F) -> Prop) :
  (k < Z.to_nat n)%nat ->
  I 0%nat s ->
  (forall i t, (i < k)%nat -> I i t ->
               wp (assign x (VInt (Z.of_nat i));; body i) t
                  (fun _ t' => I (S i) t')) ->
  (forall t, I k t ->
     exists t', (assign x (VInt (Z.of_nat k));; body k) t = (inl err, t') /\ Q t') ->
  exists t', for_range x n body s = (inl err, t') /\ Q t'.
Proof.
  intros Hk H0 Hstep Hfail. unfold for_range.
  assert (forall d a t, (a + d = k)%nat -> I a t ->
            exists t',
              foldr (fun i rest => assign x (VInt (Z.of_nat i));; body i;; rest)
                    (mret ()) (seq a (Z.to_nat n - a)) t = (inl err, t') /\ Q t')
    as Hgen.
  { induction d as [|d IH]; intros a t Had Ha.
    - replace a with k in * by lia.
      destruct (Hfail t Ha) as (t' & Hrun & HQ). exists t'. split; [|done].
      replace (Z.to_nat n - k)%nat with (S (Z.to_nat n - S k)) by lia.
      cbn [seq foldr]. rewrite bind_assoc. by apply bind_err.
    - destruct (Hstep a t) as ([] & t1 & Hrun & HI); [lia|done|].
      destruct (IH (S a) t1) as (t' & Hrest & HQ); [lia|done|].
      exists t'. split; [|done].
      replace (Z.to_nat n - a)%nat with (S (Z.to_nat n - S a)) by lia.
      cbn [seq foldr]. rewrite bind_assoc. by rewrite (bind_ok _ _ _ _ _ Hrun). }
  destruct (Hgen k 0%nat s) as (t' & Hrun & HQ); [lia|done|].
  exists t'. split; [|done]. by rewrite Nat.sub_0_r in Hrun.
Qed.

Lemma get_fun_run e h p x f :
  e !! x = Some (VFun f) -> get_fun x (State e h p) = (inr f, State e h p).
Proof. intros He. apply wp_eq. wp_steps. done. Qed.

Lemma get_num_unbound s x :
  env s !! x = None -> get_num x s = (inl NameError, s).
Proof.
  intros Hx. unfold get_num. apply bind_err. unfold lookup_name. by rewrite Hx.
Qed.

(** X17.  Run after the supernova cell, the jackknife cell as it is
    written fills the three subset arrays, rebinds [h0_jack] to [n]
    zeros and then ends with [NameError] in the first pass of its second
    loop, at [h0_jack[i] = int_to_H0(intercept)]: no cell of the notebook
    assigns [intercept].  At that point [i] is 0, [h0_jack] is still all
    zeros and [h0_sigma_jack] has the binding it had before the cell. *)
Theorem jackknife_cell_without_intercept_raises_NameError e h p lv m w f :
  reads_array1 (State e h p) "logv" lv ->
  reads_array1 (State e h p) "mu" m ->
  reads_array1 (State e h p) "weight" w ->
  length lv = length m -> length w = length m -> m <> [] ->
  e !! "int_to_H0" = Some (VFun f) ->
  e !! "intercept" = None ->
  exists s',
    cell_jackknife (State e h p) = (inl NameError, s') /\
    (forall x col,
       (x, col) ∈ [("logv_jack", lv); ("mu_jack", m); ("weight_jack", w)] ->
       forall i, (i < length m)%nat ->
         getrow x i s' = (inr (leave_one_out col i), s')) /\
    reads_array1 s' "h0_jack" (replicate (length m) (of_int 0)) /\
    env s' !! "i" = Some (VInt 0) /\
    env s' !! "h0_sigma_jack" = e !! "h0_sigma_jack".
Proof using Type.
  intros Hlv Hm Hw Hlen_lv Hlen_w Hne Hf Hb.
  assert (0 < length m)%nat as Hpos by (destruct m; [done|simpl; lia]).
  pose proof (jackknife_subsets_run e h p lv m w Hlv Hm Hw Hlen_lv Hlen_w Hne) as Hsub.
  set (E1 := <["i" := _]> _) in Hsub. set (H1 := h ++ _) in Hsub.
  set (E2 := <["h0_jack" := VRef (length H1)]> E1).
  set (H2 := H1 ++ [Array1 (replicate (length m) (of_int 0))]).
  assert (jackknife_estimates (State E1 H1 p)
            = (inl NameError, State (<["i" := VInt 0]> E2) H2 p)) as Hest.
  { unfold jackknife_estimates.
    erewrite bind_ok by (apply get_int_run; subst E1; wp_env).
    erewrite bind_ok by (apply wp_eq; eapply wp_np_zeros; [lia|done]).
    erewrite bind_ok by reflexivity.
    erewrite bind_ok by reflexivity.
    cbn [env heap rng_pos]. rewrite Nat2Z.id. fold E2 H2.
    erewrite bind_ok by (apply get_int_run; subst E2 E1; wp_env).
    destruct (for_range_fails (fun i t => t = State E2 H2 p) "i"
                (Z.of_nat (length m))
                (fun i =>
                   f ← get_fun "int_to_H0";
                   b ← get_num "intercept";
                   setitem "h0_jack" i (f b))
                (State E2 H2 p) 0%nat NameError
                (fun t => t = State (<["i" := VInt 0]> E2) H2 p))
      as (t' & Hrun & ->); [lia|done|intros i t Hi; lia| |exact Hrun].
    intros t ->. eexists. split; [|done].
    erewrite bind_ok by reflexivity.
    erewrite bind_ok by (apply get_fun_run; subst E2 E1; wp_env).
    apply bind_err. apply get_num_unbound. cbn [env]. subst E2 E1.
    by rewrite !lookup_insert_ne. }
  eexists. split.
  { unfold cell_jackknife. erewrite bind_ok by exact Hsub. apply bind_err.
    exact Hest. }
  cbn [env heap]. split; [|split; [|split]].
  - intros x col Hx i Hi. subst E2 E1 H2 H1.
    repeat (apply elem_of_cons in Hx as [[= -> ->]|Hx]);
      [ | | |by apply elem_of_nil in Hx];
      apply wp_eq;
      (eapply wp_getrow;
         [wp_env|rewrite <- app_assoc; wp_heap|by apply lookup_map_seq|done]).
  - eapply reads_array1_array; [subst E2; wp_env|]. subst H2.
    by rewrite lookup_heap_new0.
  - apply lookup_insert_eq.
  - subst E2 E1. by rewrite !lookup_insert_ne.
Qed.


End LoopFailure.

(** ** The further properties at concrete inputs *)

Section MoreWitnesses.
Local Open Scope R_scope.

Lemma query_witness :
  exists kept s',
    cell_query (State {["data" := VRef 0]} [HubbleFrame example_hubble] 0)
      = (inr (), s') /\
    get_hubble "data_modern" s' = (inr kept, s') /\
    kept `sublist_of` example_hubble.
Proof.
  destruct (query_keeps_the_rows_dated_after_2001 {["data" := VRef 0]}
              [HubbleFrame example_hubble] 0%nat 0%nat example_hubble)
    as (kept & s' & Hrun & Hget & _ & _ & Hsub & _); [reflexivity|reflexivity|].
  exists kept, s'. split; [exact Hrun|]. split; [exact Hget|exact Hsub].
Defined.

Lemma unbound_input_witness :
  run_cell (fun _ => 0%nat) (fun _ => 0) no_file no_file always_fit Smooth
    (State ∅ [] 0) = (inl NameError, State ∅ [] 0).
Proof.
  apply (cell_without_its_input_raises_NameError (fun _ => 0%nat) (fun _ => 0)
           no_file no_file always_fit Smooth "hboot" (State ∅ [] 0));
    reflexivity.
Defined.


Lemma empty_selection_witness :
  exists s',
    @run_all _ (binary64 (fun _ _ => 0%float) (fun _ => 0%float))
      (fun _ => 0%nat) (fun _ => 0%float) no_file no_file (fun _ _ _ => inl ValueError)
      [HdeltaMean; Bootstrap; H0Mean; Smooth]
      (State {["data_modern" := VRef 0]} [HubbleFrame []] 0) = (inr (), s') /\
    env s' !! "hdelta_mean" = Some (VNum nan).
Proof.
  destruct (empty_selection_gives_NaN_statistics (fun _ _ => 0%float)
              (fun _ => 0%float) (fun _ => 0%nat) (fun _ => 0%float) no_file no_file
              (fun _ _ _ => inl ValueError)
              {["data_modern" := VRef 0]} [HubbleFrame []] 0%nat 0%nat)
    as (s' & Hrun & Hmean & _); [reflexivity|reflexivity|].
  exists s'. split; [exact Hrun|exact Hmean].
Defined.

Lemma names_witness :
  env (run_session (fun _ => 0%nat) (fun _ => 0) no_file no_file always_fit
         [ReadSN; RandIndices; Jackknife; H0Mean; Smooth]
         (State {["data_modern" := VRef 0]} [HubbleFrame example_hubble] 0))
    !! "data_modern" = Some (VRef 0).
Proof.
  rewrite (cells_rebind_only_the_names_they_assign (fun _ => 0%nat) (fun _ => 0)
             no_file no_file always_fit); [reflexivity|].
  repeat constructor; intros Hin;
    repeat (apply elem_of_cons in Hin as [Hin|Hin]; [discriminate|]);
    by apply elem_of_nil in Hin.
Defined.

Lemma smoothing_after_jackknife_witness :
  exists r s1,
    cell_jackknife (State resample_env resample_heap 0) = (r, s1) /\
    env s1 !! "ndata" = Some (VInt 3) /\
    (cell_smooth (fun _ => 0) s1).1 = inl ValueError.
Proof.
  destruct (smoothing_after_the_jackknife_cell_raises_ValueError (fun _ => 0)
              resample_env resample_heap 0%nat 0%nat
              (replicate (Z.to_nat 10000) [70; 72]) 2%nat [33; 34; 35])
    as (r & s1 & Hrun & Hnd & Hsmooth);
    [reflexivity|reflexivity|reflexivity|apply length_replicate
    |by apply Forall_replicate|reflexivity|simpl; lia|lia|simpl; lia|].
  exists r, s1. split; [exact Hrun|]. split; [exact Hnd|]. by rewrite Hsmooth.
Defined.

Lemma jackknife_empty_witness :
  cell_jackknife (State {["mu" := VRef 0]} [Array1 []] 0)
    = (inl ValueError,
       State (<["ndata" := VInt 0]> {["mu" := VRef 0]}) [Array1 []] 0).
Proof.
  exact (jackknife_of_an_empty_table_raises_ValueError
           (State {["mu" := VRef 0]} [Array1 []] 0) eq_refl).
Defined.

Lemma jackknife_paired_witness :
  exists s2 mrow wrow,
    (sn_load (fun _ => inr example_sn);; sn_columns;; jackknife_subsets)
      (State ∅ [] 0) = (inr (), s2) /\
    getrow "mu_jack" 1 s2 = (inr mrow, s2) /\ mrow !! 1%nat = Some 35.4 /\
    getrow "weight_jack" 1 s2 = (inr wrow, s2) /\
    wrow !! 1%nat = Some (1 / (0.3 * 0.3)).
Proof.
  destruct (jackknife_rows_stay_paired (fun _ => inr example_sn) ∅ [] 0%nat
              example_sn) as (s2 & Hrun & Hrows); [reflexivity|discriminate|].
  destruct (Hrows 1%nat 1%nat) as (r & lrow & mrow & wrow & Hr & _ & _ & Hm & Hmj & Hw & Hwj);
    [simpl; lia|simpl; lia|].
  rewrite decide_False in Hr by lia. injection Hr as <-.
  exists s2, mrow, wrow. split; [exact Hrun|].
  split; [exact Hm|]. split; [exact Hmj|]. split; [exact Hw|exact Hwj].
Defined.

Lemma fit_cell_witness :
  exists s' err,
    cell_read_sn (fun _ => inr example_sn) fit_with_errors (State ∅ [] 0)
      = (inr (), s') /\
    env s' !! "h0_best" = Some (VNum (int_to_H0 16)) /\
    env s' !! "h0_best_err" = Some (VNum err) /\
    0 < err.
Proof.
  destruct (fit_cell_binds_an_ordered_triple (fun _ => inr example_sn)
              fit_with_errors ∅ [] 0%nat example_sn [1; 16] [[1; 0]; [0; 4]]
              1 16 4)
    as (s' & lo & best & hi & err & Hrun & _ & _ & _ & Hbest & Herr & _ & -> & _
        & Hlo & Hlt & _ & _ & Hdown & _);
    [reflexivity|reflexivity|reflexivity|reflexivity|reflexivity|lra|].
  exists s', err. split; [exact Hrun|]. split; [exact Hbest|].
  split; [exact Herr|lra].
Defined.

Lemma failed_fit_witness :
  exists s',
    cell_read_sn (fun _ => inr example_sn) failing_fit (State ∅ [] 0)
      = (inl ValueError, s') /\
    reads_array1 s' "mu" (map mu example_sn) /\
    env s' !! "h0_best" = None.
Proof.
  destruct (failed_fit_leaves_the_columns_and_old_results (fun _ => inr example_sn)
              failing_fit ∅ [] 0%nat example_sn ValueError)
    as (s' & Hrun & _ & Hmu & _ & Hold); [reflexivity|reflexivity|].
  exists s'. split; [exact Hrun|]. split; [exact Hmu|].
  rewrite (Hold "h0_best"); [reflexivity|].
  do 6 apply list_elem_of_further. apply list_elem_of_here.
Defined.

Lemma jackknife_sigma_nonnegative_witness :
  0 <= jackknife_sigma [70; 71; 69] 3 /\ jackknife_sigma [70; 70; 70] 3 = 0.
Proof.
  destruct (jackknife_sigma_nonnegative [70; 71; 69] 3) as (Hpos & _);
    [discriminate|lia|].
  destruct (jackknife_sigma_nonnegative [70; 70; 70] 3) as (_ & Hzero & _);
    [discriminate|lia|].
  split; [exact Hpos|]. apply Hzero.
  intros x y Hx Hy.
  repeat (apply elem_of_cons in Hx as [->|Hx]);
    repeat (apply elem_of_cons in Hy as [->|Hy]);
    try reflexivity; try (by apply elem_of_nil in Hx); by apply elem_of_nil in Hy.
Defined.

Lemma jackknife_without_intercept_witness :
  exists s',
    cell_jackknife (State jack_env jack_heap 0) = (inl NameError, s') /\
    reads_array1 s' "h0_jack" [0; 0; 0] /\
    env s' !! "i" = Some (VInt 0).
Proof.
  destruct (jackknife_cell_without_intercept_raises_NameError jack_env jack_heap
              0%nat [3; 4; 5] [33; 34; 35] [25; 25; 11] int_to_H0)
    as (s' & Hrun & _ & Hread & Hi & _);
    [reflexivity|reflexivity|reflexivity|reflexivity|reflexivity|discriminate
    |reflexivity|reflexivity|].
  exists s'. split; [exact Hrun|]. split; [exact Hread|exact Hi].
Defined.


End MoreWitnesses.
